(** * go-insight-go-sdk: the telemetry client, its trace context and the
      [Instrument] wrapper

    A shallow embedding of the client source of package [goinsight] (Client,
    the logging methods, SendMetric, the HTTP transport and Instrument), of
    [goinsight/tracing.go] and of [goinsight/models.go].  Go code that talks
    to the collector, allocates [*TraceContext] carriers, writes into
    [map[string]interface{}] values and may panic is modelled in a
    state-and-panic monad over an explicit [World]. *)

From Stdlib Require Import ZArith String List Floats.SpecFloat.
From stdpp Require Import base option gmap strings list fin_maps pretty.

Open Scope string_scope.
Open Scope list_scope.
Open Scope Z_scope.

Set Warnings "-register-all".

(** ** Go values *)

(** Heap addresses of [*TraceContext] pointers and of Go maps (maps are
    reference values in Go). *)
Abbreviation loc := positive.

(** An [error] value: built by [fmt.Errorf] without a [%w] verb (or by any
    other constructor that only carries a text), or by [fmt.Errorf] with a
    trailing [%w] wrapping a cause. *)
Inductive GoError : Type :=
| Errorf (text : string)
| ErrorfW (prefix : string) (cause : GoError).

(** The [Error()] method. *)
Fixpoint Error (e : GoError) : string :=
  match e with
  | Errorf text => text
  | ErrorfW prefix cause => prefix +:+ Error cause
  end.

(** The dynamic values stored in a metadata map ([interface{}]).  [GoFunc]
    stands for the kinds [encoding/json] refuses (functions, channels,
    complex numbers). *)
Inductive GoValue : Type :=
| GoNil
| GoBool (b : bool)
| GoInt (n : Z)
| GoString (s : string)
| GoFunc (tag : nat).

(** A value of type [map[string]interface{}]: [None] is the nil map, [Some l]
    a map living at address [l] of the map heap. *)
Abbreviation MapRef := (option positive).

(** A JSON document as [encoding/json] decodes it into [interface{}]. *)
Inductive JValue : Type :=
| JNull
| JBool (b : bool)
| JNum (n : Z)
| JStr (s : string)
| JArr (items : list JValue)
| JObj (fields : list (string * JValue)).

(** ** models.go *)

Record LogEntry := mkLogEntry {
  LogEntry_ServiceName : string;
  LogEntry_LogLevel : string;
  LogEntry_Message : string;
  LogEntry_TraceID : string;
  LogEntry_SpanID : string;
  LogEntry_Metadata : MapRef }.

Record MetricSource := mkMetricSource {
  Language : string;
  Framework : string;
  Version : string }.

Record Metric := mkMetric {
  Metric_ServiceName : string;
  Metric_Path : string;
  Metric_Method : string;
  Metric_StatusCode : Z;
  Metric_Duration : spec_float;
  Metric_Source : MetricSource;
  Metric_Environment : string;
  Metric_RequestID : string;
  Metric_Metadata : MapRef }.

Record Trace := mkTrace {
  Trace_ID : string;
  Trace_ServiceName : string }.

Record Span := mkSpan {
  Span_ID : string;
  Span_TraceID : string;
  Span_ParentID : string;
  Span_Service : string;
  Span_Operation : string }.

Record TraceContext := mkTraceContext {
  TraceID : string;
  SpanID : string }.

(** ** context.Context *)

(** What a context can hold under a key: a [*TraceContext] (possibly the nil
    pointer) or a value of some other type. *)
Inductive CtxValue : Type :=
| CtxTrace (p : option positive)
| CtxOther (v : GoValue).

Inductive Context : Type :=
| Background
| WithValue (parent : Context) (key : string) (val : CtxValue).

(** [ctx.Value(key)]: the innermost binding of [key]. *)
Fixpoint Value (ctx : Context) (key : string) : option CtxValue :=
  match ctx with
  | Background => None
  | WithValue parent k v =>
      if decide (k = key) then Some v else Value parent key
  end.

(** ** The transport's view of the outside *)

(** The [data] argument of [sendRequestWithResponse] as [json.Marshal] reads
    it: the struct, and for the two structs that hold a metadata map the
    content of that map at the time of the call ([None] for the nil map). *)
Inductive Payload : Type :=
| PLog (e : LogEntry) (metadata : option (gmap string GoValue))
| PMetric (m : Metric) (metadata : option (gmap string GoValue))
| PTrace (t : Trace)
| PSpan (s : Span).

(** One call of the transport ([sendRequestWithResponse]). *)
Record Emission := mkEmission {
  em_method : string;
  em_path : string;
  em_data : option Payload }.

(** One [*http.Request] handed to [http.Client.Do].  The body is kept as the
    payload that was marshalled ([None]: empty body). *)
Record Request := mkRequest {
  req_method : string;
  req_url : string;
  req_header : list (string * string);
  req_body : option Payload }.

(** What [http.Client.Do] gives back: a transport error (connection refused,
    timeout), or a response with its status code and its body.  The body is
    the first JSON value of the stream, [None] when there is none (empty or
    malformed body). *)
Inductive HttpResult : Type :=
| DoError (e : GoError)
| Response (status : Z) (body : option JValue).

(** The [*http.Client] of the SDK client together with the collector behind
    it: the answer to a request may depend on the requests made before. *)
Definition HttpClient : Type := list Request -> Request -> HttpResult.

Record Client := mkClient {
  apiKey : string;
  endpoint : string;
  client : HttpClient;
  serviceName : string }.

(** ** The world *)

Record World := mkWorld {
  (** heap of [TraceContext] structs reachable through pointers *)
  carriers : gmap positive TraceContext;
  (** heap of [map[string]interface{}] values *)
  maps : gmap positive (gmap string GoValue);
  (** calls of the transport, oldest first *)
  emitted : list Emission;
  (** requests handed to [http.Client.Do], oldest first *)
  sent : list Request;
  (** the monotonic clock read by [time.Now], in nanoseconds *)
  clock : Z;
  (** contexts with which [Instrument] invoked the wrapped function *)
  invoked : list Context }.

Definition set_carriers (h : gmap positive TraceContext) (w : World) : World :=
  mkWorld h (maps w) (emitted w) (sent w) (clock w) (invoked w).
Definition set_maps (h : gmap positive (gmap string GoValue)) (w : World) : World :=
  mkWorld (carriers w) h (emitted w) (sent w) (clock w) (invoked w).
Definition add_emitted (e : Emission) (w : World) : World :=
  mkWorld (carriers w) (maps w) (emitted w ++ [e]) (sent w) (clock w) (invoked w).
Definition add_sent (r : Request) (w : World) : World :=
  mkWorld (carriers w) (maps w) (emitted w) (sent w ++ [r]) (clock w) (invoked w).
Definition add_invoked (ctx : Context) (w : World) : World :=
  mkWorld (carriers w) (maps w) (emitted w) (sent w) (clock w) (invoked w ++ [ctx]).

(** ** The monad: state passing with panics *)

Inductive Outcome (A : Type) : Type :=
| Ret (a : A)
| Panic (msg : string).
Arguments Ret {A} a.
Arguments Panic {A} msg.

Definition M (A : Type) : Type := World -> Outcome A * World.

Definition ret {A} (a : A) : M A := fun w => (Ret a, w).

Definition panic {A} (msg : string) : M A := fun w => (Panic msg, w).

Definition bind {A B} (m : M A) (k : A -> M B) : M B :=
  fun w =>
    match m w with
    | (Ret a, w') => k a w'
    | (Panic msg, w') => (Panic msg, w')
    end.

Notation "'let*' x ':=' c 'in' k" := (bind c (fun x => k))
  (at level 10, x name, c at level 100, k at level 200).
Notation "'let*' ' p ':=' c 'in' k" := (bind c (fun x => match x with p => k end))
  (at level 10, p pattern, c at level 100, k at level 200).
Notation "c ';;' k" := (bind c (fun _ => k))
  (at level 100, k at level 200, right associativity).

Definition modify (f : World -> World) : M unit := fun w => (Ret tt, f w).

(** [defer d] around [body]: [d] runs when [body] returns and also when it
    panics; a panic of [d] replaces the outcome of [body]. *)
Definition with_defer {A} (d : M unit) (body : M A) : M A :=
  fun w =>
    let '(r, w1) := body w in
    match d w1 with
    | (Ret _, w2) => (r, w2)
    | (Panic msg, w2) => (Panic msg, w2)
    end.

(** ** Primitive effects *)

(** [&TraceContext{...}]: a fresh address of the carrier heap. *)
Definition new_TraceContext (tc : TraceContext) : M loc :=
  fun w =>
    let l := fresh (dom (carriers w)) in
    (Ret l, set_carriers (<[l := tc]> (carriers w)) w).

(** Reading through a [*TraceContext].  Go has no dangling pointers; an
    address outside the heap is treated like the nil pointer. *)
Definition load_TraceContext (p : loc) : M TraceContext :=
  fun w =>
    match carriers w !! p with
    | Some tc => (Ret tc, w)
    | None => (Panic "runtime error: invalid memory address or nil pointer dereference", w)
    end.

(** [p.SpanID = sid]. *)
Definition store_SpanID (p : loc) (sid : string) : M unit :=
  let* tc := load_TraceContext p in
  modify (fun w => set_carriers (<[p := mkTraceContext (TraceID tc) sid]> (carriers w)) w).

(** A map literal or [make(map[string]interface{})]. *)
Definition new_map (content : gmap string GoValue) : M loc :=
  fun w =>
    let l := fresh (dom (maps w)) in
    (Ret l, set_maps (<[l := content]> (maps w)) w).

(** [m[key] = v] on a non-nil map. *)
Definition map_assign (m : loc) (key : string) (v : GoValue) : M unit :=
  fun w =>
    match maps w !! m with
    | Some content => (Ret tt, set_maps (<[m := <[key := v]> content]> (maps w)) w)
    | None => (Panic "assignment to entry in nil map", w)
    end.

(** The content of a map value, as a reader such as [json.Marshal] sees it. *)
Definition read_map (m : MapRef) : M (option (gmap string GoValue)) :=
  match m with
  | None => ret None
  | Some l =>
      fun w =>
        match maps w !! l with
        | Some content => (Ret (Some content), w)
        | None => (Panic "runtime error: invalid memory address or nil pointer dereference", w)
        end
  end.

(** [time.Now()]. *)
Definition time_Now : M Z := fun w => (Ret (clock w), w).

Definition minDuration : Z := - 2 ^ 63.
Definition maxDuration : Z := 2 ^ 63 - 1.

(** [time.Since(start)]: the difference of two clock readings as an [int64]
    count of nanoseconds, saturating as [Time.Sub] does. *)
Definition time_Since (start : Z) : M Z :=
  fun w => (Ret (Z.max minDuration (Z.min maxDuration (clock w - start))), w).

(** [d.Milliseconds()]: integer division, truncating toward zero. *)
Definition Milliseconds (d : Z) : Z := Z.quot d 1000000.

(** ** encoding/json *)

Definition json_supported (v : GoValue) : bool :=
  match v with
  | GoFunc _ => false
  | _ => true
  end.

Definition metadata_supported (md : option (gmap string GoValue)) : bool :=
  match md with
  | None => true
  | Some content => forallb json_supported (snd <$> map_to_list content)
  end.

Definition float_supported (f : spec_float) : bool :=
  match f with
  | S754_nan | S754_infinity _ => false
  | _ => true
  end.

(** [json.Marshal(data)]: the error it returns, if any. *)
Definition json_Marshal (p : Payload) : option GoError :=
  match p with
  | PLog _ md =>
      if metadata_supported md then None else Some (Errorf "json: unsupported type")
  | PMetric m md =>
      if negb (float_supported (Metric_Duration m)) then Some (Errorf "json: unsupported value")
      else if metadata_supported md then None else Some (Errorf "json: unsupported type")
  | PTrace _ | PSpan _ => None
  end.

(** A JSON object as a Go map: a later duplicate of a key overwrites. *)
Definition object_to_map (fields : list (string * JValue)) : gmap string JValue :=
  fold_left (fun m kv => <[fst kv := snd kv]> m) fields ∅.

(** [json.NewDecoder(body).Decode(&resp)] for [var resp map[string]interface{}]:
    an object fills the map, [null] leaves it nil, anything else is an
    error. *)
Definition json_Decode (body : option JValue) : GoError + option (gmap string JValue) :=
  match body with
  | None => inl (Errorf "invalid character")
  | Some JNull => inr None
  | Some (JObj fields) => inr (Some (object_to_map fields))
  | Some _ => inl (Errorf "json: cannot unmarshal into Go value of type map[string]interface {}")
  end.

(** [resp[key]] on a possibly nil map: a missing key gives the nil interface. *)
Definition index (resp : option (gmap string JValue)) (key : string) : option JValue :=
  match resp with
  | None => None
  | Some m => m !! key
  end.

(** The unchecked type assertion [v.(string)]. *)
Definition assert_string (v : option JValue) : M string :=
  match v with
  | Some (JStr s) => ret s
  | Some JNull | None =>
      panic "interface conversion: interface {} is nil, not string"
  | Some _ => panic "interface conversion: interface {} is not string"
  end.

(** ** The client: transport *)

Section Client.

(** [http.NewRequest(method, url, body)] of [net/http]: the error it returns
    for a method or URL it rejects, if any. *)
Variable http_NewRequest : string -> string -> option GoError.

(** [c.client.Do(req)]. *)
Definition Do (c : Client) (req : Request) : M HttpResult :=
  fun w => (Ret (client c (sent w) req), add_sent req w).

(** What [data interface{}] holds when the transport is called. *)
Inductive Data : Type :=
| DLog (e : LogEntry)
| DMetric (m : Metric)
| DTrace (t : Trace)
| DSpan (s : Span).

Definition read_data (data : option Data) : M (option Payload) :=
  match data with
  | None => ret None
  | Some (DLog e) => let* md := read_map (LogEntry_Metadata e) in ret (Some (PLog e md))
  | Some (DMetric m) => let* md := read_map (Metric_Metadata m) in ret (Some (PMetric m md))
  | Some (DTrace t) => ret (Some (PTrace t))
  | Some (DSpan s) => ret (Some (PSpan s))
  end.

Definition marshal_error (p : option Payload) : option GoError :=
  match p with
  | None => None
  | Some p => json_Marshal p
  end.

(** [response] tells whether a non-nil [&resp] was passed; the first
    component of the result is the value [resp] holds afterwards.  On entry
    the call is recorded in [emitted], with the data as [json.Marshal] is
    about to read it; this record is the only step that is not in the
    source. *)
Definition sendRequestWithResponse (c : Client) (method path : string)
    (data : option Data) (response : bool)
  : M (option (gmap string JValue) * option GoError) :=
  let* body := read_data data in
  modify (add_emitted (mkEmission method path body));;
  match marshal_error body with
  | Some err => ret (None, Some (ErrorfW "failed to marshal request: " err))
  | None =>
  match http_NewRequest method (endpoint c +:+ path) with
  | Some err => ret (None, Some (ErrorfW "failed to create request: " err))
  | None =>
  let req := mkRequest method (endpoint c +:+ path)
               [("Content-Type", "application/json"); ("X-API-Key", apiKey c)]
               body in
  let* resp := Do c req in
  match resp with
  | DoError err => ret (None, Some (ErrorfW "failed to send request: " err))
  | Response StatusCode Body =>
      if (StatusCode <? 200) || (StatusCode >=? 300) then
        ret (None, Some (Errorf ("API request failed with status " +:+ pretty StatusCode)))
      else if response then
        match json_Decode Body with
        | inl err => ret (None, Some (ErrorfW "failed to decode response: " err))
        | inr m => ret (m, None)
        end
      else ret (None, None)
  end
  end
  end.

Definition sendRequest (c : Client) (method path : string) (data : option Data)
  : M (option GoError) :=
  let* '(_, err) := sendRequestWithResponse c method path data false in
  ret err.

Definition sendLog (c : Client) (entry : LogEntry) : M (option GoError) :=
  sendRequest c "POST" "/logs" (Some (DLog entry)).

Definition sendMetric (c : Client) (metric : Metric) : M (option GoError) :=
  sendRequest c "POST" "/metrics" (Some (DMetric metric)).

Definition sendTrace (c : Client) (trace : Trace)
  : M (option (gmap string JValue) * option GoError) :=
  sendRequestWithResponse c "POST" "/traces" (Some (DTrace trace)) true.

Definition sendSpan (c : Client) (span : Span)
  : M (option (gmap string JValue) * option GoError) :=
  sendRequestWithResponse c "POST" "/spans" (Some (DSpan span)) true.

Definition endSpan (c : Client) (spanID : string) : M (option GoError) :=
  sendRequest c "POST" ("/spans/" +:+ spanID +:+ "/end") None.

Definition endTrace (c : Client) (traceID : string) : M (option GoError) :=
  sendRequest c "POST" ("/traces/" +:+ traceID +:+ "/end") None.

(** ** tracing.go *)

Definition trace_key : string := "go-insight-trace".

(** The comma-ok assertion of [ctx.Value(key)] to a [*TraceContext]; a nil
    pointer of the right type is returned as it is, which is nil as well. *)
Definition GetTraceFromContext (ctx : Context) : option loc :=
  match Value ctx trace_key with
  | Some (CtxTrace p) => p
  | _ => None
  end.

Definition StartTrace (c : Client) (ctx : Context) (operation : string)
  : M (Context * option loc * option GoError) :=
  let trace := mkTrace "" (serviceName c) in
  let* '(resp, err) := sendTrace c trace in
  match err with
  | Some err => ret (ctx, None, Some err)
  | None =>
  let* id := assert_string (index resp "id") in
  let* traceCtx := new_TraceContext (mkTraceContext id "") in
  let* tc := load_TraceContext traceCtx in
  let span := mkSpan "" (TraceID tc) "" (serviceName c) operation in
  let* '(spanResp, err) := sendSpan c span in
  match err with
  | Some err => ret (ctx, Some traceCtx, Some err)
  | None =>
  let* id := assert_string (index spanResp "id") in
  store_SpanID traceCtx id;;
  let newCtx := WithValue ctx trace_key (CtxTrace (Some traceCtx)) in
  ret (newCtx, Some traceCtx, None)
  end
  end.

Definition StartSpan (c : Client) (ctx : Context) (operation : string)
  : M (Context * option GoError) :=
  match GetTraceFromContext ctx with
  | None => ret (ctx, Some (Errorf "no trace context found"))
  | Some traceCtx =>
  let* tc := load_TraceContext traceCtx in
  let span := mkSpan "" (TraceID tc) (SpanID tc) (serviceName c) operation in
  let* '(resp, err) := sendSpan c span in
  match err with
  | Some err => ret (ctx, Some err)
  | None =>
  let* id := assert_string (index resp "id") in
  let* newTraceCtx := new_TraceContext (mkTraceContext (TraceID tc) id) in
  let newCtx := WithValue ctx trace_key (CtxTrace (Some newTraceCtx)) in
  ret (newCtx, None)
  end
  end.

Definition FinishSpan (c : Client) (ctx : Context) : M (option GoError) :=
  match GetTraceFromContext ctx with
  | None => ret (Some (Errorf "no trace context found"))
  | Some traceCtx =>
      let* tc := load_TraceContext traceCtx in
      endSpan c (SpanID tc)
  end.

Definition FinishTrace (c : Client) (ctx : Context) : M (option GoError) :=
  match GetTraceFromContext ctx with
  | None => ret (Some (Errorf "no trace context found"))
  | Some traceCtx =>
      let* tc := load_TraceContext traceCtx in
      endTrace c (TraceID tc)
  end.

(** ** The client: logging, metrics and the wrapper *)

Definition Log (c : Client) (ctx : Context) (level message : string)
    (metadata : MapRef) : M (option GoError) :=
  let traceCtx := GetTraceFromContext ctx in
  let entry := mkLogEntry (serviceName c) level message "" "" metadata in
  let* entry :=
    match traceCtx with
    | Some p =>
        let* tc := load_TraceContext p in
        ret (mkLogEntry (serviceName c) level message (TraceID tc) (SpanID tc) metadata)
    | None => ret entry
    end in
  sendLog c entry.

(** The variadic [metadata ...map[string]interface{}] is a list of maps. *)
Definition first_metadata (metadata : list MapRef) : MapRef :=
  match metadata with
  | m :: _ => m
  | [] => None
  end.

Definition LogInfo (c : Client) (ctx : Context) (message : string)
    (metadata : list MapRef) : M (option GoError) :=
  Log c ctx "INFO" message (first_metadata metadata).

(** One element of [errAndMetadata ...interface{}] by its dynamic type: an
    error, a map (possibly the nil map), or anything else, the nil interface
    included. *)
Inductive Arg : Type :=
| ArgError (e : GoError)
| ArgMap (m : MapRef)
| ArgOther (v : GoValue).

(** The type switch of the loop of [LogError], on the pair of its two
    variables [err] and [metadata]. *)
Definition scan_step (acc : option GoError * MapRef) (arg : Arg)
  : option GoError * MapRef :=
  match arg with
  | ArgError v => (Some v, snd acc)
  | ArgMap v => (fst acc, v)
  | ArgOther _ => acc
  end.

Definition scan (errAndMetadata : list Arg) : option GoError * MapRef :=
  fold_left scan_step errAndMetadata (None, None).

Definition LogError (c : Client) (ctx : Context) (message : string)
    (errAndMetadata : list Arg) : M (option GoError) :=
  let '(err, metadata) := scan errAndMetadata in
  let* metadata :=
    match metadata with
    | None => new_map ∅
    | Some m => ret m
    end in
  match err with
  | Some err => map_assign metadata "error" (GoString (Error err))
  | None => ret tt
  end;;
  Log c ctx "ERROR" message (Some metadata).

Definition LogWarn (c : Client) (ctx : Context) (message : string)
    (metadata : list MapRef) : M (option GoError) :=
  Log c ctx "WARN" message (first_metadata metadata).

Definition LogDebug (c : Client) (ctx : Context) (message : string)
    (metadata : list MapRef) : M (option GoError) :=
  Log c ctx "DEBUG" message (first_metadata metadata).

Definition set_Metric_ServiceName (name : string) (m : Metric) : Metric :=
  mkMetric name (Metric_Path m) (Metric_Method m) (Metric_StatusCode m)
    (Metric_Duration m) (Metric_Source m) (Metric_Environment m)
    (Metric_RequestID m) (Metric_Metadata m).

Definition SendMetric (c : Client) (metric : Metric) : M (option GoError) :=
  let metric :=
    if String.eqb (Metric_ServiceName metric) "" then
      set_Metric_ServiceName (serviceName c) metric
    else metric in
  sendMetric c metric.

(** The map literal of the two completion logs. *)
Definition completion_metadata (operation : string) (duration : Z)
  : gmap string GoValue :=
  <["operation" := GoString operation]>
    (<["duration_ms" := GoInt (Milliseconds duration)]> ∅).

(** The deferred closure of [Instrument]. *)
Definition finish_deferred (c : Client) (operation : string) (spanCtx : Context)
  : M unit :=
  let* err := FinishSpan c spanCtx in
  match err with
  | Some err =>
      let* md := new_map (<["operation" := GoString operation]> ∅) in
      LogError c spanCtx "Failed to finish span" [ArgError err; ArgMap (Some md)];;
      ret tt
  | None => ret tt
  end.

(** The wrapped function is any computation of the monad: it may emit, write
    to the heaps, let time pass, return an error or panic.  Its invocation
    is recorded in [invoked] just before it runs. *)
Definition Instrument (c : Client) (operation : string)
    (fn : Context -> M (option GoError)) : Context -> M (option GoError) :=
  fun ctx =>
    let* '(spanCtx, err) := StartSpan c ctx operation in
    let spanCtx := match err with Some _ => ctx | None => spanCtx end in
    with_defer (finish_deferred c operation spanCtx)
      (let* start := time_Now in
       modify (add_invoked spanCtx);;
       let* fnErr := fn spanCtx in
       let* duration := time_Since start in
       match fnErr with
       | Some e =>
           let* md := new_map (completion_metadata operation duration) in
           LogError c spanCtx ("Operation failed: " +:+ operation)
             [ArgError e; ArgMap (Some md)]
       | None =>
           let* md := new_map (completion_metadata operation duration) in
           LogInfo c spanCtx ("Operation completed: " +:+ operation) [Some md]
       end;;
       ret fnErr).

End Client.

(** ** Stub collectors and sample values *)

Definition empty_world : World := mkWorld ∅ ∅ [] [] 0 [].

Definition accept_all : string -> string -> option GoError := fun _ _ => None.

Definition ok_id (id : string) : HttpResult :=
  Response 200 (Some (JObj [("id", JStr id)])).

(** A collector that names the trace ["t1"] and the spans ["s1"], ["s2"] in
    the order they are created, and accepts everything else. *)
Definition stub_collector : HttpClient :=
  fun history req =>
    if String.eqb (req_url req) "http://collector/traces" then ok_id "t1"
    else if String.eqb (req_url req) "http://collector/spans" then
      if existsb (fun r => String.eqb (req_url r) "http://collector/spans") history
      then ok_id "s2" else ok_id "s1"
    else Response 204 None.

Definition stub_client : Client :=
  mkClient "key" "http://collector" stub_collector "svc".

Definition run {A} (m : M A) (w : World) : Outcome A := fst (m w).
Definition exec {A} (m : M A) (w : World) : World := snd (m w).

(** ** Vocabulary of the statements *)

(** The carrier a context gives access to, read through the heap. *)
Definition read_carrier (w : World) (ctx : Context) : option TraceContext :=
  match GetTraceFromContext ctx with
  | Some p => carriers w !! p
  | None => None
  end.

(** The trace and span ids [Log] copies into an entry built on [ctx]: empty
    without a carrier; undefined only for a pointer outside the heap. *)
Definition entry_ids (w : World) (ctx : Context) : option (string * string) :=
  match GetTraceFromContext ctx with
  | Some p => (fun tc => (TraceID tc, SpanID tc)) <$> carriers w !! p
  | None => Some ("", "")
  end.

(** Two worlds that differ at most in what was emitted and sent. *)
Definition same_store (w w' : World) : Prop :=
  carriers w' = carriers w /\ maps w' = maps w /\
  clock w' = clock w /\ invoked w' = invoked w.

Definition headers (c : Client) : list (string * string) :=
  [("Content-Type", "application/json"); ("X-API-Key", apiKey c)].

Definition request (c : Client) (method path : string) (body : option Payload)
  : Request :=
  mkRequest method (endpoint c +:+ path) (headers c) body.

Definition in_2xx (status : Z) : Prop := 200 <= status < 300.

(** The request the transport builds for an emission. *)
Definition request_of (c : Client) (e : Emission) : Request :=
  request c (em_method e) (em_path e) (em_data e).

(** Between [w] and [w'] the transport was called with [es], in this order,
    and the requests handed to the HTTP client since [w] are requests of
    these emissions, in order (an emission whose request could not be
    marshalled or built sends none). *)
Definition emits (c : Client) (w w' : World) (es : list Emission) : Prop :=
  emitted w' = emitted w ++ es /\
  (exists rs, sent w' = sent w ++ rs /\ sublist rs (request_of c <$> es)).

(** A log entry with a non-nil metadata map, as the transport sees it. *)
Definition log_emission (c : Client) (level message : string)
    (ids : string * string) (md : loc) (content : gmap string GoValue)
  : Emission :=
  mkEmission "POST" "/logs"
    (Some (PLog (mkLogEntry (serviceName c) level message (fst ids) (snd ids) (Some md))
             (Some content))).

(** The completion log of [Instrument]. *)
Definition completion_log (c : Client) (operation : string)
    (ids : string * string) (fnErr : option GoError) (duration : Z) (md : loc)
  : Emission :=
  match fnErr with
  | Some e =>
      log_emission c "ERROR" ("Operation failed: " +:+ operation) ids md
        (<["error" := GoString (Error e)]> (completion_metadata operation duration))
  | None =>
      log_emission c "INFO" ("Operation completed: " +:+ operation) ids md
        (completion_metadata operation duration)
  end.

(** The log of the deferred closure of [Instrument] when FinishSpan failed
    with [err]. *)
Definition finish_failure_log (c : Client) (operation : string)
    (ids : string * string) (err : GoError) (md : loc) : Emission :=
  log_emission c "ERROR" "Failed to finish span" ids md
    (<["error" := GoString (Error err)]> (<["operation" := GoString operation]> ∅)).

Definition end_span_emission (spanID : string) : Emission :=
  mkEmission "POST" ("/spans/" +:+ spanID +:+ "/end") None.

(** The calls the deferred closure of [Instrument] makes through FinishSpan:
    the end-span call on a context with a carrier, none without. *)
Definition finish_calls (spanCtx : Context) (ids : string * string)
  : list Emission :=
  match GetTraceFromContext spanCtx with
  | Some _ => [end_span_emission (snd ids)]
  | None => []
  end.

(** The log of the deferred closure: present exactly when FinishSpan
    returned an error, which it carries; [wf] is the world FinishSpan left. *)
Definition finish_failure (c : Client) (operation : string)
    (ids : string * string) (ferr : option GoError) (wf : World)
  : list Emission :=
  match ferr with
  | Some err => [finish_failure_log c operation ids err (fresh (dom (maps wf)))]
  | None => []
  end.

(** The statement of [Instrument] that logs the result of the wrapped
    function, as it stands in its body. *)
Definition log_completion (http_NewRequest : string -> string -> option GoError)
    (c : Client) (operation : string) (spanCtx : Context)
    (fnErr : option GoError) (duration : Z) : M (option GoError) :=
  match fnErr with
  | Some e =>
      let* md := new_map (completion_metadata operation duration) in
      LogError http_NewRequest c spanCtx ("Operation failed: " +:+ operation)
        [ArgError e; ArgMap (Some md)]
  | None =>
      let* md := new_map (completion_metadata operation duration) in
      LogInfo http_NewRequest c spanCtx ("Operation completed: " +:+ operation)
        [Some md]
  end.

(** The duration [Instrument] measures between two clock readings. *)
Definition elapsed (start stop : Z) : Z :=
  Z.max minDuration (Z.min maxDuration (stop - start)).

(** The level of an emission that is a log entry. *)
Definition log_level (e : Emission) : option string :=
  match em_data e with
  | Some (PLog entry _) => Some (LogEntry_LogLevel entry)
  | _ => None
  end.

Definition log_message (e : Emission) : option string :=
  match em_data e with
  | Some (PLog entry _) => Some (LogEntry_Message entry)
  | _ => None
  end.

(** A log entry that reports the completion of [operation]. *)
Definition is_completion_log (operation : string) (e : Emission) : bool :=
  match log_message e with
  | Some message =>
      String.eqb message ("Operation completed: " +:+ operation) ||
      String.eqb message ("Operation failed: " +:+ operation)
  | None => false
  end.

(** The arguments of [LogError] by type, in the order they were passed. *)
Definition errors_of (errAndMetadata : list Arg) : list GoError :=
  omap (fun a => match a with ArgError e => Some e | _ => None end) errAndMetadata.

Definition maps_of (errAndMetadata : list Arg) : list MapRef :=
  omap (fun a => match a with ArgMap m => Some m | _ => None end) errAndMetadata.

(** The scan of [LogError] as the specification words it: the first error
    and the first map of the argument list win. *)
Definition scan_first_wins (errAndMetadata : list Arg) : option GoError * MapRef :=
  (head (errors_of errAndMetadata), default None (head (maps_of errAndMetadata))).

(** The value under ["error"] in the metadata of the latest emission. *)
Definition injected_error (w : World) : option GoValue :=
  match last (emitted w) with
  | Some (mkEmission _ _ (Some (PLog _ (Some content)))) => content !! "error"
  | _ => None
  end.

(** ** Further stub collectors *)

(** A collector that creates the trace and answers 500 to everything else. *)
Definition span_failing_collector : HttpClient :=
  fun _ req =>
    if String.eqb (req_url req) "http://collector/traces" then ok_id "t1"
    else Response 500 None.

Definition span_failing_client : Client :=
  mkClient "key" "http://collector" span_failing_collector "svc".

(** A collector that answers 200 with the JSON object [{}]. *)
Definition no_id_client : Client :=
  mkClient "key" "http://collector" (fun _ _ => Response 200 (Some (JObj []))) "svc".

(** A collector that answers 200 with [{"id": 7}]. *)
Definition numeric_id_client : Client :=
  mkClient "key" "http://collector"
    (fun _ _ => Response 200 (Some (JObj [("id", JNum 7)]))) "svc".

(** The world and the context StartTrace leaves against [stub_collector]. *)
Definition traced_world : World :=
  Eval vm_compute in
    exec (StartTrace accept_all stub_client Background "op") empty_world.

Definition traced_ctx : Context :=
  WithValue Background trace_key (CtxTrace (Some 1%positive)).

(** The world and the context StartSpan leaves after that. *)
Definition child_world : World :=
  Eval vm_compute in
    exec (StartSpan accept_all stub_client traced_ctx "child") traced_world.

Definition child_ctx : Context :=
  WithValue traced_ctx trace_key (CtxTrace (Some 2%positive)).

(** The world in which StartTrace has created the trace against
    [span_failing_collector] and is about to create the root span. *)
Definition half_traced_world : World :=
  Eval vm_compute in
    exec (sendTrace accept_all span_failing_client (mkTrace "" "svc")) empty_world.

Definition sample_metric (name : string) : Metric :=
  mkMetric name "/users" "GET" 200 (S754_finite false 3 0)
    (mkMetricSource "go" "gin" "1.9") "" "" None.

(** A world in which the caller holds a metadata map with two entries, one
    of them under ["error"]. *)
Definition world_with_map : World :=
  mkWorld ∅ {[ 1%positive := <["error" := GoString "old"]> {[ "a" := GoInt 1 ]} ]}
    [] [] 0 [].

(** ** Vocabulary of the further properties *)

(** What every request of the SDK looks like. *)
Definition well_formed_request (c : Client) (r : Request) : Prop :=
  req_method r = "POST" /\ req_header r = headers c /\
  exists path, req_url r = endpoint c +:+ path.

Definition end_trace_emission (traceID : string) : Emission :=
  mkEmission "POST" ("/traces/" +:+ traceID +:+ "/end") None.

(** An argument of [LogError] that is neither an error nor a map. *)
Definition is_other (a : Arg) : bool :=
  match a with
  | ArgOther _ => true
  | _ => false
  end.

(** The entry [Log] hands to the transport, with any metadata value. *)
Definition log_entry_emission (c : Client) (level message : string)
    (ids : string * string) (metadata : MapRef)
    (content : option (gmap string GoValue)) : Emission :=
  mkEmission "POST" "/logs"
    (Some (PLog (mkLogEntry (serviceName c) level message (fst ids) (snd ids) metadata)
             content)).

(** Between [w] and [w'] at most [n] requests were handed to the HTTP
    client, all of them well formed. *)
Definition posts (c : Client) (n : nat) (w w' : World) : Prop :=
  exists rs, sent w' = sent w ++ rs /\ Forall (well_formed_request c) rs /\
             (length rs <= n)%nat.

(** Every carrier of [w] is still there, unchanged, in [w'], and maps, clock
    and invocations are the same. *)
Definition extends_store (w w' : World) : Prop :=
  maps w' = maps w /\ clock w' = clock w /\ invoked w' = invoked w /\
  forall p tc, carriers w !! p = Some tc -> carriers w' !! p = Some tc.

(** A wrapped function that lets 2.5 ms pass and fails. *)
Definition slow_failure : Context -> M (option GoError) :=
  fun _ w =>
    (Ret (Some (Errorf "boom")),
     mkWorld (carriers w) (maps w) (emitted w) (sent w) (clock w + 2500000) (invoked w)).


(** A collector that refuses every connection. *)
Definition unreachable_client : Client :=
  mkClient "key" "http://collector" (fun _ _ => DoError (Errorf "connection refused")) "svc".

(** A collector that answers 302 with a well-formed body. *)
Definition redirecting_client : Client :=
  mkClient "key" "http://collector" (fun _ _ => Response 302 (Some (JObj [("id", JStr "t1")]))) "svc".

(** A world in which the caller holds a map with a function value. *)
Definition world_with_func : World :=
  mkWorld ∅ {[ 1%positive := {[ "callback" := GoFunc 0 ]} ]} [] [] 0 [].

(** A metric whose duration is not a number. *)
Definition nan_metric : Metric :=
  mkMetric "" "/users" "GET" 200 S754_nan (mkMetricSource "go" "gin" "1.9") "" "" None.

(** The world StartTrace leaves against [span_failing_collector]. *)
Definition failed_trace_world : World :=
  Eval vm_compute in
    exec (StartTrace accept_all span_failing_client Background "op") empty_world.

(** The world StartSpan leaves against a collector out of reach. *)
Definition unreachable_world : World :=
  Eval vm_compute in
    exec (StartSpan accept_all unreachable_client traced_ctx "child") traced_world.

(** [child_world] once [slow_failure] has been invoked on [child_ctx]. *)
Definition slow_world : World :=
  Eval vm_compute in snd (slow_failure child_ctx (add_invoked child_ctx child_world)).

(** ** The transport *)

Section Transport.

Variable http_NewRequest : string -> string -> option GoError.
Variable c : Client.

Abbreviation sendRequestWithResponse := (sendRequestWithResponse http_NewRequest).
Abbreviation sendRequest := (sendRequest http_NewRequest).

Lemma read_map_pure m o w w' : read_map m w = (o, w') -> w' = w.
Proof.
  destruct m as [l|]; simpl; [|unfold ret; congruence].
  destruct (maps w !! l); congruence.
Qed.

Lemma read_data_pure data o w w' : read_data data w = (o, w') -> w' = w.
Proof.
  destruct data as [[e|m|t|s]|]; simpl; unfold bind, ret; try congruence.
  - destruct (read_map _ w) as [[md|msg] w1] eqn:E; apply read_map_pure in E;
      congruence.
  - destruct (read_map _ w) as [[md|msg] w1] eqn:E; apply read_map_pure in E;
      congruence.
Qed.

(** Whatever the collector does, a call of the transport whose data can be
    read returns, records one emission and hands at most one request to the
    HTTP client. *)
Lemma transport_effect method path data response body w :
  read_data data w = (Ret body, w) ->
  exists res w',
    sendRequestWithResponse c method path data response w = (Ret res, w') /\
    emitted w' = emitted w ++ [mkEmission method path body] /\
    same_store w w' /\
    (sent w' = sent w \/ sent w' = sent w ++ [request c method path body]).
Proof.
  intros Hd. unfold sendRequestWithResponse, bind. rewrite Hd. simpl.
  destruct (marshal_error body).
  { eexists _, _. split; [reflexivity|]. repeat split; auto. }
  destruct (http_NewRequest method (endpoint c +:+ path)).
  { eexists _, _. split; [reflexivity|]. repeat split; auto. }
  unfold Do. simpl.
  destruct (client c _ _) as [e|st b].
  { eexists _, _. split; [reflexivity|]. repeat split; auto. }
  destruct ((st <? 200) || (st >=? 300)).
  { eexists _, _. split; [reflexivity|]. repeat split; auto. }
  destruct response.
  - destruct (json_Decode b);
      (eexists _, _; split; [reflexivity|]; repeat split; auto).
  - eexists _, _. split; [reflexivity|]. repeat split; auto.
Qed.

(** A 2xx answer with a decodable body: the decoded map is returned. *)
Lemma transport_success method path data body st b m w :
  read_data data w = (Ret body, w) ->
  marshal_error body = None ->
  http_NewRequest method (endpoint c +:+ path) = None ->
  client c (sent w) (request c method path body) = Response st b ->
  in_2xx st ->
  json_Decode b = inr m ->
  sendRequestWithResponse c method path data true w =
    (Ret (m, None),
     add_sent (request c method path body)
       (add_emitted (mkEmission method path body) w)).
Proof.
  intros Hd Hm Hn Hc [Hlo Hhi] Hj.
  unfold sendRequestWithResponse, bind. rewrite Hd. simpl.
  rewrite Hm, Hn. unfold Do. simpl. fold (headers c).
  fold (request c method path body). rewrite Hc.
  destruct (Z.ltb_spec st 200); [lia|].
  destruct (Z.geb_spec st 300); [lia|]. simpl.
  by rewrite Hj.
Qed.

(** Conversely, the transport reports no error only after such an answer. *)
Lemma transport_success_inv method path data response res w w' :
  sendRequestWithResponse c method path data response w = (Ret (res, None), w') ->
  exists body st b,
    read_data data w = (Ret body, w) /\
    client c (sent w) (request c method path body) = Response st b /\
    in_2xx st /\
    (if response then json_Decode b = inr res else res = None) /\
    w' = add_sent (request c method path body)
           (add_emitted (mkEmission method path body) w).
Proof.
  unfold sendRequestWithResponse, bind.
  destruct (read_data data w) as [[body|msg] w0] eqn:Hd; [|discriminate].
  pose proof (read_data_pure _ _ _ _ Hd) as ->. simpl.
  destruct (marshal_error body); [discriminate|].
  destruct (http_NewRequest method (endpoint c +:+ path)); [discriminate|].
  unfold Do. simpl. fold (headers c). fold (request c method path body).
  destruct (client c _ _) as [e|st b] eqn:Hc; [discriminate|].
  destruct (Z.ltb_spec st 200); [discriminate|].
  destruct (Z.geb_spec st 300); [discriminate|]. simpl.
  destruct response.
  - destruct (json_Decode b) eqn:Hj; [discriminate|].
    intros [= <- <-]. exists body, st, b. repeat split; auto; lia.
  - intros [= <- <-]. exists body, st, b. repeat split; auto; lia.
Qed.

End Transport.

(** ** Trace and span lifecycle *)

Section Tracing.

Variable http_NewRequest : string -> string -> option GoError.
Variable c : Client.

Abbreviation sendTrace := (sendTrace http_NewRequest).
Abbreviation sendSpan := (sendSpan http_NewRequest).
Abbreviation StartTrace := (StartTrace http_NewRequest).
Abbreviation StartSpan := (StartSpan http_NewRequest).
Abbreviation FinishSpan := (FinishSpan http_NewRequest).
Abbreviation FinishTrace := (FinishTrace http_NewRequest).

Lemma fresh_carrier_unused w : carriers w !! fresh (dom (carriers w)) = None.
Proof. apply not_elem_of_dom, is_fresh. Qed.

Lemma index_ok_id id m :
  json_Decode (Some (JObj [("id", JStr id)])) = inr m ->
  index m "id" = Some (JStr id).
Proof.
  simpl. intros [= <-]. unfold object_to_map. simpl. apply lookup_insert_eq.
Qed.

(** C6: on a context that holds no carrier, StartSpan, FinishSpan and
    FinishTrace return the error "no trace context found" and leave the world
    as it was: nothing is handed to the transport and no request reaches the
    HTTP client. *)
Theorem no_carrier_no_network_call ctx operation w :
  GetTraceFromContext ctx = None ->
  StartSpan c ctx operation w =
    (Ret (ctx, Some (Errorf "no trace context found")), w) /\
  FinishSpan c ctx w = (Ret (Some (Errorf "no trace context found")), w) /\
  FinishTrace c ctx w = (Ret (Some (Errorf "no trace context found")), w).
Proof.
  intros H. unfold StartSpan, FinishSpan, FinishTrace.
  by rewrite H.
Qed.

(** C2: when the trace-creation call succeeds (and names the trace) but the
    root-span-creation call fails, StartTrace returns the context it was
    given, with the error of the span creation. *)
Theorem StartTrace_root_span_failure ctx operation w resp w1 id spanResp err w2 :
  sendTrace c (mkTrace "" (serviceName c)) w = (Ret (resp, None), w1) ->
  index resp "id" = Some (JStr id) ->
  sendSpan c (mkSpan "" id "" (serviceName c) operation)
    (snd (new_TraceContext (mkTraceContext id "") w1)) =
    (Ret (spanResp, Some err), w2) ->
  StartTrace c ctx operation w =
    (Ret (ctx, Some (fresh (dom (carriers w1))), Some err), w2).
Proof.
  intros Ht Hid Hs. unfold StartTrace, bind.
  rewrite Ht, Hid. simpl. unfold load_TraceContext. simpl.
  rewrite lookup_insert_eq. simpl in *. by rewrite Hs.
Qed.

(** What a successful StartSpan did. *)
Lemma StartSpan_success_inv ctx operation w newCtx w' :
  StartSpan c ctx operation w = (Ret (newCtx, None), w') ->
  exists p tc st b resp id,
    let span := mkSpan "" (TraceID tc) (SpanID tc) (serviceName c) operation in
    let req := request c "POST" "/spans" (Some (PSpan span)) in
    let p' := fresh (dom (carriers w)) in
    GetTraceFromContext ctx = Some p /\ carriers w !! p = Some tc /\
    client c (sent w) req = Response st b /\ in_2xx st /\
    json_Decode b = inr resp /\ index resp "id" = Some (JStr id) /\
    newCtx = WithValue ctx trace_key (CtxTrace (Some p')) /\
    w' = set_carriers (<[p' := mkTraceContext (TraceID tc) id]> (carriers w))
           (add_sent req (add_emitted (mkEmission "POST" "/spans" (Some (PSpan span))) w)).
Proof.
  unfold StartSpan, bind.
  destruct (GetTraceFromContext ctx) as [p|] eqn:Hg; [|discriminate].
  unfold load_TraceContext.
  destruct (carriers w !! p) as [tc|] eqn:Hp; [|discriminate].
  destruct (sendSpan c _ w) as [[[resp [e|]]|msg] w1] eqn:Hs;
    try discriminate.
  apply transport_success_inv in Hs as (body & st & b & Hd & Hc & Hst & Hj & ->).
  simpl in Hd. injection Hd as <-.
  destruct (index resp "id") as [[| | |id| |]|] eqn:Hid; try discriminate.
  simpl. intros [= <- <-].
  exists p, tc, st, b, resp, id. simpl. repeat split; auto; apply Hst.
Qed.

(** Whatever StartSpan returns, it has called the transport at most once,
    to create a span. *)
Lemma StartSpan_emitted ctx operation w r w0 :
  StartSpan c ctx operation w = (Ret r, w0) ->
  emitted w0 = emitted w \/
  exists span, emitted w0 = emitted w ++ [mkEmission "POST" "/spans" (Some (PSpan span))].
Proof.
  unfold StartSpan, bind.
  destruct (GetTraceFromContext ctx) as [p|]; [|intros [= <- <-]; by left].
  unfold load_TraceContext.
  destruct (carriers w !! p) as [tc|]; [|discriminate].
  set (span := mkSpan "" (TraceID tc) (SpanID tc) (serviceName c) operation).
  destruct (transport_effect http_NewRequest c "POST" "/spans" (Some (DSpan span))
              true _ w eq_refl) as ([resp err] & w' & Hrun & Hem & _ & _).
  unfold sendSpan. rewrite Hrun. destruct err as [err|].
  - intros [= <- <-]. right. by exists span.
  - destruct (index resp "id") as [[| | |id| |]|]; try discriminate.
    simpl. intros [= <- <-]. right. by exists span.
Qed.

(** A creation answered without a string under "id": the unchecked
    assertion panics. *)
Lemma StartTrace_without_string_id ctx operation w resp w1 :
  sendTrace c (mkTrace "" (serviceName c)) w = (Ret (resp, None), w1) ->
  (forall id, index resp "id" <> Some (JStr id)) ->
  exists msg, StartTrace c ctx operation w = (Panic msg, w1).
Proof.
  intros Ht Hid. unfold StartTrace, bind. rewrite Ht.
  destruct (index resp "id") as [[| | |id| |]|] eqn:E; simpl; eauto.
  by destruct (Hid id).
Qed.

Lemma StartSpan_without_string_id ctx operation w p tc resp w1 :
  GetTraceFromContext ctx = Some p -> carriers w !! p = Some tc ->
  sendSpan c (mkSpan "" (TraceID tc) (SpanID tc) (serviceName c) operation) w =
    (Ret (resp, None), w1) ->
  (forall id, index resp "id" <> Some (JStr id)) ->
  exists msg, StartSpan c ctx operation w = (Panic msg, w1).
Proof.
  intros Hg Hp Hs Hid. unfold StartSpan, bind, load_TraceContext.
  rewrite Hg, Hp, Hs.
  destruct (index resp "id") as [[| | |id| |]|] eqn:E; simpl; eauto.
  by destruct (Hid id).
Qed.

Lemma GetTraceFromContext_WithValue ctx p :
  GetTraceFromContext (WithValue ctx trace_key (CtxTrace p)) = p.
Proof. reflexivity. Qed.

(** C8: a successful StartSpan returns a context whose carrier lives at an
    address that was unused before, holds the trace id of the carrier of the
    input context and the span id the collector answered, and every carrier
    that could be read before (through the input context or any other
    context) reads the same afterwards. *)
Theorem StartSpan_fresh_carrier ctx operation w newCtx w' :
  StartSpan c ctx operation w = (Ret (newCtx, None), w') ->
  exists p tc p' st b resp id,
    GetTraceFromContext ctx = Some p /\ carriers w !! p = Some tc /\
    client c (sent w)
      (request c "POST" "/spans"
         (Some (PSpan (mkSpan "" (TraceID tc) (SpanID tc) (serviceName c) operation))))
      = Response st b /\
    json_Decode b = inr resp /\ index resp "id" = Some (JStr id) /\
    GetTraceFromContext newCtx = Some p' /\
    carriers w !! p' = None /\
    carriers w' !! p' = Some (mkTraceContext (TraceID tc) id) /\
    (forall q, q <> p' -> carriers w' !! q = carriers w !! q) /\
    (forall ctx0 tc0,
        read_carrier w ctx0 = Some tc0 -> read_carrier w' ctx0 = Some tc0).
Proof.
  intros H. apply StartSpan_success_inv in H
    as (p & tc & st & b & resp & id & Hg & Hp & Hc & _ & Hj & Hid & -> & ->).
  exists p, tc, (fresh (dom (carriers w))), st, b, resp, id.
  split; [done|]. split; [done|]. split; [done|]. split; [done|].
  split; [done|]. split; [apply GetTraceFromContext_WithValue|].
  split; [apply fresh_carrier_unused|]. simpl.
  split; [apply lookup_insert_eq|].
  split; [intros q Hq; by apply lookup_insert_ne|].
  intros ctx0 tc0. unfold read_carrier. simpl.
  destruct (GetTraceFromContext ctx0) as [q|]; [|done].
  intros Hq. rewrite lookup_insert_ne; [done|].
  intros <-. by rewrite fresh_carrier_unused in Hq.
Qed.

(** StartSpan on a context with a carrier, against a collector that answers
    the create-span request with a 2xx response naming the span. *)
Lemma StartSpan_success ctx operation w p tc st b resp id :
  let span := mkSpan "" (TraceID tc) (SpanID tc) (serviceName c) operation in
  let req := request c "POST" "/spans" (Some (PSpan span)) in
  let p' := fresh (dom (carriers w)) in
  GetTraceFromContext ctx = Some p -> carriers w !! p = Some tc ->
  http_NewRequest "POST" (endpoint c +:+ "/spans") = None ->
  client c (sent w) req = Response st b -> in_2xx st ->
  json_Decode b = inr resp -> index resp "id" = Some (JStr id) ->
  StartSpan c ctx operation w =
    (Ret (WithValue ctx trace_key (CtxTrace (Some p')), None),
     set_carriers (<[p' := mkTraceContext (TraceID tc) id]> (carriers w))
       (add_sent req (add_emitted (mkEmission "POST" "/spans" (Some (PSpan span))) w))).
Proof.
  intros span req p' Hg Hp Hn Hc Hst Hj Hid.
  unfold StartSpan, bind. rewrite Hg. unfold load_TraceContext. rewrite Hp.
  unfold sendSpan.
  rewrite (transport_success http_NewRequest c "POST" "/spans" _
             (Some (PSpan span)) st b resp w); auto.
  by rewrite Hid.
Qed.

(** StartTrace against a collector that answers both creation requests with
    a 2xx response naming the trace and the root span. *)
Lemma StartTrace_success ctx operation w st1 b1 resp1 tid st2 b2 resp2 sid :
  let traceReq :=
    request c "POST" "/traces" (Some (PTrace (mkTrace "" (serviceName c)))) in
  let span := mkSpan "" tid "" (serviceName c) operation in
  let rootReq := request c "POST" "/spans" (Some (PSpan span)) in
  let p := fresh (dom (carriers w)) in
  http_NewRequest "POST" (endpoint c +:+ "/traces") = None ->
  http_NewRequest "POST" (endpoint c +:+ "/spans") = None ->
  client c (sent w) traceReq = Response st1 b1 -> in_2xx st1 ->
  json_Decode b1 = inr resp1 -> index resp1 "id" = Some (JStr tid) ->
  client c (sent w ++ [traceReq]) rootReq = Response st2 b2 -> in_2xx st2 ->
  json_Decode b2 = inr resp2 -> index resp2 "id" = Some (JStr sid) ->
  StartTrace c ctx operation w =
    (Ret (WithValue ctx trace_key (CtxTrace (Some p)), Some p, None),
     set_carriers (<[p := mkTraceContext tid sid]> (carriers w))
       (add_sent rootReq
          (add_emitted (mkEmission "POST" "/spans" (Some (PSpan span)))
             (add_sent traceReq
                (add_emitted
                   (mkEmission "POST" "/traces"
                      (Some (PTrace (mkTrace "" (serviceName c))))) w))))).
Proof.
  intros traceReq span rootReq p Hn1 Hn2 Hc1 Hst1 Hj1 Hid1 Hc2 Hst2 Hj2 Hid2.
  unfold StartTrace, bind, sendTrace.
  rewrite (transport_success http_NewRequest c "POST" "/traces" _
             (Some (PTrace (mkTrace "" (serviceName c)))) st1 b1 resp1 w); auto.
  rewrite Hid1. simpl. unfold load_TraceContext. simpl.
  rewrite lookup_insert_eq. simpl. unfold sendSpan.
  erewrite (transport_success http_NewRequest c "POST" "/spans" _
              (Some (PSpan span)) st2 b2 resp2); eauto.
  rewrite Hid2. simpl. unfold store_SpanID, bind, load_TraceContext. simpl.
  rewrite lookup_insert_eq. simpl. unfold set_carriers. simpl.
  by rewrite insert_insert_eq.
Qed.

(** C7: against a collector that names the trace "t1", its root span "s1"
    and the next span "s2", StartTrace yields a context whose carrier is
    {t1, s1}; StartSpan on that context then sends one create-span request,
    whose parent is "s1", and yields a context whose carrier is {t1, s2}. *)
Theorem parent_child_linkage ctx op child w :
  let traceReq :=
    request c "POST" "/traces" (Some (PTrace (mkTrace "" (serviceName c)))) in
  let rootReq :=
    request c "POST" "/spans"
      (Some (PSpan (mkSpan "" "t1" "" (serviceName c) op))) in
  http_NewRequest "POST" (endpoint c +:+ "/traces") = None ->
  http_NewRequest "POST" (endpoint c +:+ "/spans") = None ->
  client c (sent w) traceReq = ok_id "t1" ->
  client c (sent w ++ [traceReq]) rootReq = ok_id "s1" ->
  (forall span,
      client c (sent w ++ [traceReq; rootReq])
        (request c "POST" "/spans" (Some (PSpan span))) = ok_id "s2") ->
  exists ctx2 p w2 ctx3 w3,
    StartTrace c ctx op w = (Ret (ctx2, Some p, None), w2) /\
    GetTraceFromContext ctx2 = Some p /\
    read_carrier w2 ctx2 = Some (mkTraceContext "t1" "s1") /\
    StartSpan c ctx2 child w2 = (Ret (ctx3, None), w3) /\
    read_carrier w3 ctx3 = Some (mkTraceContext "t1" "s2") /\
    read_carrier w3 ctx2 = Some (mkTraceContext "t1" "s1") /\
    sent w3 =
      sent w2 ++
      [request c "POST" "/spans"
         (Some (PSpan (mkSpan "" "t1" "s1" (serviceName c) child)))].
Proof.
  intros traceReq rootReq Hnt Hns Ht Hr Hs.
  assert (H200 : in_2xx 200) by (unfold in_2xx; lia).
  pose proof (StartTrace_success ctx op w 200 _ _ "t1" 200 _ _ "s1"
                Hnt Hns Ht H200 eq_refl (index_ok_id _ _ eq_refl)
                Hr H200 eq_refl (index_ok_id _ _ eq_refl)) as HT.
  set (p := fresh (dom (carriers w))) in *.
  set (ctx2 := WithValue ctx trace_key (CtxTrace (Some p))) in *.
  match type of HT with _ = (_, ?x) => set (w2 := x) in * end.
  assert (Hp : carriers w2 !! p = Some (mkTraceContext "t1" "s1"))
    by apply lookup_insert_eq.
  assert (Hsent : sent w2 = sent w ++ [traceReq; rootReq])
    by (subst w2; simpl; by rewrite <- app_assoc).
  assert (Hc : client c (sent w2)
                 (request c "POST" "/spans"
                    (Some (PSpan (mkSpan "" "t1" "s1" (serviceName c) child))))
               = ok_id "s2") by (rewrite Hsent; apply Hs).
  pose proof (StartSpan_success ctx2 child w2 p _ 200 _ _ "s2"
                eq_refl Hp Hns Hc H200 eq_refl
                (index_ok_id _ _ eq_refl)) as HS.
  eexists ctx2, p, w2, _, _.
  split; [exact HT|]. split; [done|].
  split; [unfold read_carrier, ctx2; by rewrite GetTraceFromContext_WithValue|].
  split; [exact HS|].
  split; [unfold read_carrier; rewrite GetTraceFromContext_WithValue;
          simpl; apply lookup_insert_eq|].
  split; [|done].
  assert (Hne : fresh (dom (carriers w2)) <> p).
  { intros E. pose proof (fresh_carrier_unused w2) as Hf.
    rewrite E in Hf. congruence. }
  unfold read_carrier, ctx2. rewrite GetTraceFromContext_WithValue. simpl.
  by rewrite lookup_insert_ne.
Qed.

End Tracing.

(** ** Logging and metrics *)

Section Logging.

Variable http_NewRequest : string -> string -> option GoError.
Variable c : Client.

Abbreviation sendRequest := (sendRequest http_NewRequest).
Abbreviation Log := (Log http_NewRequest).
Abbreviation LogInfo := (LogInfo http_NewRequest).
Abbreviation LogError := (LogError http_NewRequest).
Abbreviation SendMetric := (SendMetric http_NewRequest).

Lemma emits_nil w : emits c w w [].
Proof.
  split; [by rewrite app_nil_r|]. exists []. split; [by rewrite app_nil_r|].
  constructor.
Qed.

Lemma emits_app w w1 w2 es1 es2 :
  emits c w w1 es1 -> emits c w1 w2 es2 -> emits c w w2 (es1 ++ es2).
Proof.
  intros [He1 (rs1 & Hs1 & Hsub1)] [He2 (rs2 & Hs2 & Hsub2)]. split.
  - by rewrite He2, He1, app_assoc.
  - exists (rs1 ++ rs2). split; [by rewrite Hs2, Hs1, app_assoc|].
    rewrite fmap_app. by apply sublist_app.
Qed.

Lemma transport_emits method path data response body w :
  read_data data w = (Ret body, w) ->
  exists res w',
    sendRequestWithResponse http_NewRequest c method path data response w =
      (Ret res, w') /\
    same_store w w' /\ emits c w w' [mkEmission method path body].
Proof.
  intros Hd.
  destruct (transport_effect http_NewRequest c method path data response body w Hd)
    as (res & w' & Hrun & Hem & Hst & Hsent).
  exists res, w'. split; [exact Hrun|]. split; [exact Hst|].
  split; [exact Hem|].
  destruct Hsent as [Hs|Hs].
  - exists []. split; [by rewrite app_nil_r|]. apply sublist_nil_l.
  - exists [request c method path body]. split; [done|]. simpl. reflexivity.
Qed.

Lemma sendRequest_emits method path data body w :
  read_data data w = (Ret body, w) ->
  exists err w',
    sendRequest c method path data w = (Ret err, w') /\
    same_store w w' /\ emits c w w' [mkEmission method path body].
Proof.
  intros Hd.
  destruct (transport_emits method path data false body w Hd)
    as ([res err] & w' & Hrun & Hst & Hem).
  exists err, w'. unfold sendRequest, bind. rewrite Hrun. by split.
Qed.

(** [Log] with a live metadata map returns, whatever the collector does, and
    calls the transport once, with the entry and the map as it is then. *)
Lemma Log_effect ctx level message md content ids w :
  maps w !! md = Some content ->
  entry_ids w ctx = Some ids ->
  exists err w',
    Log c ctx level message (Some md) w = (Ret err, w') /\
    same_store w w' /\
    emits c w w' [log_emission c level message ids md content].
Proof.
  intros Hmd Hids.
  assert (Hread : forall e, LogEntry_Metadata e = Some md ->
            read_data (Some (DLog e)) w = (Ret (Some (PLog e (Some content))), w)).
  { intros e He. simpl. unfold bind. rewrite He. simpl. by rewrite Hmd. }
  unfold Log, entry_ids, bind in *.
  destruct (GetTraceFromContext ctx) as [p|].
  - unfold load_TraceContext.
    destruct (carriers w !! p) as [tc|]; [|discriminate].
    injection Hids as <-. simpl.
    by apply sendRequest_emits, Hread.
  - injection Hids as <-. simpl.
    by apply sendRequest_emits, Hread.
Qed.

Lemma scan_fold args acc :
  fold_left scan_step args acc =
    (from_option Some (fst acc) (last (errors_of args)),
     from_option id (snd acc) (last (maps_of args))).
Proof.
  revert acc. induction args as [|a args IH]; intros [e m]; [done|].
  simpl. rewrite IH. unfold errors_of, maps_of.
  destruct a as [e'|m'|v]; simpl; rewrite ?last_cons;
    fold (errors_of args); fold (maps_of args);
    by destruct (last (errors_of args)), (last (maps_of args)).
Qed.

(** The loop of [LogError] keeps the last error and the last map. *)
Lemma scan_last_wins args :
  scan args = (last (errors_of args), default None (last (maps_of args))).
Proof.
  unfold scan. rewrite scan_fold. simpl.
  by destruct (last (errors_of args)), (last (maps_of args)).
Qed.

(** [LogError] with an error and a live map: the message of the error is
    written into that map under "error", and the entry is emitted with the
    map so changed. *)
Lemma LogError_effect ctx message args err md content ids w :
  scan args = (Some err, Some md) ->
  maps w !! md = Some content ->
  entry_ids w ctx = Some ids ->
  let content' := <["error" := GoString (Error err)]> content in
  exists r w',
    LogError c ctx message args w = (Ret r, w') /\
    carriers w' = carriers w /\ maps w' = <[md := content']> (maps w) /\
    clock w' = clock w /\ invoked w' = invoked w /\
    emits c w w' [log_emission c "ERROR" message ids md content'].
Proof.
  intros Hscan Hmd Hids content'.
  unfold LogError. rewrite Hscan. unfold bind at 1 2. simpl.
  unfold map_assign. rewrite Hmd. fold content'.
  set (w1 := set_maps (<[md := content']> (maps w)) w).
  destruct (Log_effect ctx "ERROR" message md content' ids w1)
    as (r & w' & Hrun & (Hc & Hm & Hk & Hi) & Hem).
  { apply lookup_insert_eq. }
  { exact Hids. }
  exists r, w'. split; [exact Hrun|]. split; [exact Hc|]. split; [exact Hm|].
  split; [exact Hk|]. split; [exact Hi|]. exact Hem.
Qed.

(** [LogInfo] with one live map. *)
Lemma LogInfo_effect ctx message md content ids w :
  maps w !! md = Some content ->
  entry_ids w ctx = Some ids ->
  exists r w',
    LogInfo c ctx message [Some md] w = (Ret r, w') /\
    same_store w w' /\
    emits c w w' [log_emission c "INFO" message ids md content].
Proof. apply Log_effect. Qed.

(** C5 (amended): the loop of LogError keeps the last error and the last
    map of its arguments; passing an error and a map in either order is the
    same call; and with an error and a live map the entry handed to the
    transport has the given message and the content of the map with the
    message of the error added under "error". *)
Theorem LogError_last_of_each_type ctx message w :
  (forall args,
      scan args = (last (errors_of args), default None (last (maps_of args)))) /\
  (forall e m,
      LogError c ctx message [ArgError e; ArgMap m] w =
      LogError c ctx message [ArgMap m; ArgError e] w) /\
  (forall args e md content ids,
      last (errors_of args) = Some e ->
      last (maps_of args) = Some (Some md) ->
      maps w !! md = Some content ->
      entry_ids w ctx = Some ids ->
      exists r w',
        LogError c ctx message args w = (Ret r, w') /\
        emits c w w'
          [log_emission c "ERROR" message ids md
             (<["error" := GoString (Error e)]> content)]).
Proof.
  split; [apply scan_last_wins|]. split; [done|].
  intros args e md content ids He Hm Hmd Hids.
  destruct (LogError_effect ctx message args e md content ids w)
    as (r & w' & Hrun & _ & _ & _ & _ & Hem); auto.
  { by rewrite scan_last_wins, He, Hm. }
  by exists r, w'.
Qed.

(** C10: when the arguments of LogError hold an error and their last map is
    a live map of the caller, the call returns and has written the message of
    the error under "error" into that very map, replacing what was stored
    there; no other key and no other map has changed. *)
Theorem LogError_mutates_callers_map ctx message args e md content ids w :
  last (errors_of args) = Some e ->
  last (maps_of args) = Some (Some md) ->
  maps w !! md = Some content ->
  entry_ids w ctx = Some ids ->
  exists r w',
    LogError c ctx message args w = (Ret r, w') /\
    maps w' = <[md := <["error" := GoString (Error e)]> content]> (maps w).
Proof.
  intros He Hm Hmd Hids.
  destruct (LogError_effect ctx message args e md content ids w)
    as (r & w' & Hrun & _ & Hmaps & _); auto.
  { by rewrite scan_last_wins, He, Hm. }
  by exists r, w'.
Qed.

(** C9: SendMetric hands the transport one metric: the caller's metric with
    the service name of the client when its own is empty, and the caller's
    metric as it is otherwise. *)
Theorem SendMetric_service_name metric md w :
  read_map (Metric_Metadata metric) w = (Ret md, w) ->
  exists err w' sentMetric,
    SendMetric c metric w = (Ret err, w') /\
    same_store w w' /\
    emits c w w' [mkEmission "POST" "/metrics" (Some (PMetric sentMetric md))] /\
    (Metric_ServiceName metric = "" ->
     sentMetric = set_Metric_ServiceName (serviceName c) metric) /\
    (Metric_ServiceName metric <> "" -> sentMetric = metric).
Proof.
  intros Hmd. unfold SendMetric, sendMetric.
  set (m' := if String.eqb (Metric_ServiceName metric) "" then _ else _).
  assert (Hread : read_data (Some (DMetric m')) w = (Ret (Some (PMetric m' md)), w)).
  { simpl. unfold bind.
    replace (Metric_Metadata m') with (Metric_Metadata metric)
      by (subst m'; by destruct (String.eqb _ _)).
    by rewrite Hmd. }
  destruct (sendRequest_emits "POST" "/metrics" _ _ w Hread)
    as (err & w' & Hrun & Hst & Hem).
  exists err, w', m'. split; [exact Hrun|]. split; [exact Hst|].
  split; [exact Hem|]. subst m'.
  destruct (String.eqb_spec (Metric_ServiceName metric) ""); split; congruence.
Qed.

End Logging.

(** ** The instrumentation wrapper *)

Section Wrapper.

Variable http_NewRequest : string -> string -> option GoError.
Variable c : Client.

Abbreviation StartSpan := (StartSpan http_NewRequest).
Abbreviation FinishSpan := (FinishSpan http_NewRequest).
Abbreviation LogInfo := (LogInfo http_NewRequest).
Abbreviation LogError := (LogError http_NewRequest).
Abbreviation finish_deferred := (finish_deferred http_NewRequest).
Abbreviation Instrument := (Instrument http_NewRequest).

(** The completion log: one call of the transport, whatever [fn] returned. *)
Lemma completion_effect operation spanCtx fnErr duration ids w :
  entry_ids w spanCtx = Some ids ->
  exists r w',
    match fnErr with
    | Some e =>
        let* md := new_map (completion_metadata operation duration) in
        LogError c spanCtx ("Operation failed: " +:+ operation)
          [ArgError e; ArgMap (Some md)]
    | None =>
        let* md := new_map (completion_metadata operation duration) in
        LogInfo c spanCtx ("Operation completed: " +:+ operation) [Some md]
    end w = (Ret r, w') /\
    carriers w' = carriers w /\ clock w' = clock w /\ invoked w' = invoked w /\
    emits c w w'
      [completion_log c operation ids fnErr duration (fresh (dom (maps w)))].
Proof.
  intros Hids. set (md := fresh (dom (maps w))).
  set (w1 := set_maps (<[md := completion_metadata operation duration]> (maps w)) w).
  assert (Hmd : maps w1 !! md = Some (completion_metadata operation duration))
    by apply lookup_insert_eq.
  destruct fnErr as [e|]; unfold bind; simpl; fold md; fold w1.
  - destruct (LogError_effect http_NewRequest c spanCtx
                ("Operation failed: " +:+ operation)
                [ArgError e; ArgMap (Some md)] e md _ ids w1 eq_refl Hmd Hids)
      as (r & w' & Hrun & Hc & _ & Hk & Hi & Hem).
    exists r, w'. split; [exact Hrun|]. by repeat (split; [done|]).
  - destruct (LogInfo_effect http_NewRequest c spanCtx
                ("Operation completed: " +:+ operation) md _ ids w1 Hmd Hids)
      as (r & w' & Hrun & (Hc & _ & Hk & Hi) & Hem).
    exists r, w'. split; [exact Hrun|]. by repeat (split; [done|]).
Qed.

(** The deferred closure: it returns, and either the span was finished, or
    one log reports that it could not be. *)
Lemma finish_deferred_effect operation spanCtx ids w :
  entry_ids w spanCtx = Some ids ->
  exists w' finish,
    finish_deferred c operation spanCtx w = (Ret tt, w') /\
    carriers w' = carriers w /\ clock w' = clock w /\ invoked w' = invoked w /\
    emits c w w' finish /\
    match GetTraceFromContext spanCtx with
    | None =>
        exists md,
          finish = [finish_failure_log c operation ids
                      (Errorf "no trace context found") md]
    | Some _ =>
        finish = [end_span_emission (snd ids)] \/
        exists err md,
          finish = [end_span_emission (snd ids);
                    finish_failure_log c operation ids err md]
    end.
Proof.
  intros Hids. unfold finish_deferred, FinishSpan, bind.
  pose proof Hids as Hids0. unfold entry_ids in Hids0.
  destruct (GetTraceFromContext spanCtx) as [p|] eqn:Hg.
  - unfold load_TraceContext.
    destruct (carriers w !! p) as [tc|] eqn:Hp; [|discriminate].
    injection Hids0 as <-. unfold endSpan.
    destruct (sendRequest_emits http_NewRequest c "POST"
                ("/spans/" +:+ SpanID tc +:+ "/end") None None w eq_refl)
      as (err & w1 & Hrun & (Hc & Hm & Hk & Hi) & Hem).
    rewrite Hrun. destruct err as [err|].
    + set (md := fresh (dom (maps w1))).
      set (w2 := set_maps (<[md := <["operation" := GoString operation]> ∅]> (maps w1)) w1).
      assert (Hids2 : entry_ids w2 spanCtx = Some (TraceID tc, SpanID tc)).
      { unfold entry_ids. rewrite Hg. simpl. by rewrite Hc, Hp. }
      destruct (LogError_effect http_NewRequest c spanCtx "Failed to finish span"
                  [ArgError err; ArgMap (Some md)] err md _ _ w2 eq_refl
                  (lookup_insert_eq _ _ _) Hids2)
        as (r & w' & Hrun' & Hc' & _ & Hk' & Hi' & Hem').
      exists w', [end_span_emission (SpanID tc);
                  finish_failure_log c operation (TraceID tc, SpanID tc) err md].
      change (new_map (<["operation" := GoString operation]> ∅) w1) with (Ret md, w2).
      cbv beta iota. rewrite Hrun'.
      split; [done|]. split; [by rewrite Hc'|]. split; [by rewrite Hk'|].
      split; [by rewrite Hi'|]. split; [|right; by exists err, md].
      exact (emits_app c w w1 w' [_] [_] Hem Hem').
    + exists w1, [end_span_emission (SpanID tc)].
      split; [done|]. split; [done|]. split; [done|]. split; [done|].
      split; [exact Hem|by left].
  - injection Hids0 as <-.
    set (md := fresh (dom (maps w))).
    set (w2 := set_maps (<[md := <["operation" := GoString operation]> ∅]> (maps w)) w).
    destruct (LogError_effect http_NewRequest c spanCtx "Failed to finish span"
                [ArgError (Errorf "no trace context found"); ArgMap (Some md)]
                _ md _ _ w2 eq_refl (lookup_insert_eq _ _ _) Hids)
      as (r & w' & Hrun' & Hc' & _ & Hk' & Hi' & Hem').
    exists w', [finish_failure_log c operation ("", "")
                  (Errorf "no trace context found") md].
    change (ret (Some (Errorf "no trace context found")) w)
      with (Ret (Some (Errorf "no trace context found")), w).
    cbv beta iota.
    change (new_map (<["operation" := GoString operation]> ∅) w) with (Ret md, w2).
    cbv beta iota. rewrite Hrun'.
    split; [done|]. split; [done|]. split; [done|]. split; [done|].
    split; [exact Hem'|by exists md].
Qed.

(** One call of the wrapper, once StartSpan has returned and [fn] returns:
    the completion log follows [fn], then the deferred closure runs. *)
Lemma Instrument_effect operation fn ctx w spanCtx0 serr w0 fnErr w1 ids :
  StartSpan c ctx operation w = (Ret (spanCtx0, serr), w0) ->
  let spanCtx := match serr with Some _ => ctx | None => spanCtx0 end in
  fn spanCtx (add_invoked spanCtx w0) = (Ret fnErr, w1) ->
  entry_ids w1 spanCtx = Some ids ->
  exists w2 finish,
    Instrument c operation fn ctx w = (Ret fnErr, w2) /\
    carriers w2 = carriers w1 /\ clock w2 = clock w1 /\ invoked w2 = invoked w1 /\
    emits c w1 w2
      (completion_log c operation ids fnErr (elapsed (clock w0) (clock w1))
         (fresh (dom (maps w1))) :: finish) /\
    match GetTraceFromContext spanCtx with
    | None =>
        exists md,
          finish = [finish_failure_log c operation ids
                      (Errorf "no trace context found") md]
    | Some _ =>
        finish = [end_span_emission (snd ids)] \/
        exists err md,
          finish = [end_span_emission (snd ids);
                    finish_failure_log c operation ids err md]
    end.
Proof.
  intros Hstart spanCtx Hfn Hids.
  destruct (completion_effect operation spanCtx fnErr
              (elapsed (clock w0) (clock w1)) ids w1 Hids)
    as (r & w1' & Hlog & Hc & Hk & Hi & Hem).
  assert (Hids' : entry_ids w1' spanCtx = Some ids).
  { unfold entry_ids in *. by rewrite Hc. }
  destruct (finish_deferred_effect operation spanCtx ids w1' Hids')
    as (w2 & finish & Hfin & Hc' & Hk' & Hi' & Hem' & Hshape).
  exists w2, finish.
  split.
  { unfold Instrument. unfold bind at 1. rewrite Hstart. cbv beta iota.
    fold spanCtx. unfold with_defer.
    unfold bind at 1. unfold time_Now. cbv beta iota.
    unfold bind at 1. unfold modify. cbv beta iota.
    unfold bind at 1. rewrite Hfn. cbv beta iota.
    unfold bind at 1. unfold time_Since. cbv beta iota.
    change (clock (add_invoked spanCtx w0)) with (clock w0).
    fold (elapsed (clock w0) (clock w1)).
    unfold bind at 1. rewrite Hlog. cbv beta iota.
    unfold ret at 1. by rewrite Hfin. }
  split; [by rewrite Hc'|]. split; [by rewrite Hk'|]. split; [by rewrite Hi'|].
  split; [|exact Hshape].
  exact (emits_app c w1 w1' w2 [_] finish Hem Hem').
Qed.

(** The deferred closure, step by step: FinishSpan runs first and makes the
    end-span call on a context with a carrier; the failure log follows
    exactly when FinishSpan returned an error, and carries that error. *)
Lemma finish_deferred_result operation spanCtx ids w :
  entry_ids w spanCtx = Some ids ->
  exists ferr wf w',
    FinishSpan c spanCtx w = (Ret ferr, wf) /\
    finish_deferred c operation spanCtx w = (Ret tt, w') /\
    (GetTraceFromContext spanCtx = None ->
     ferr = Some (Errorf "no trace context found")) /\
    emitted wf = emitted w ++ finish_calls spanCtx ids /\
    emitted w' = emitted wf ++ finish_failure c operation ids ferr wf.
Proof.
  intros Hids.
  assert (Hlog : forall err wf,
    entry_ids wf spanCtx = Some ids ->
    exists r w',
      (let* md := new_map (<["operation" := GoString operation]> ∅) in
       LogError c spanCtx "Failed to finish span" [ArgError err; ArgMap (Some md)];;
       ret tt) wf = (Ret r, w') /\
      emitted w' = emitted wf ++ finish_failure c operation ids (Some err) wf).
  { intros err wf Hwf. set (md := fresh (dom (maps wf))).
    set (w2 := set_maps (<[md := <["operation" := GoString operation]> ∅]> (maps wf)) wf).
    destruct (LogError_effect http_NewRequest c spanCtx "Failed to finish span"
                [ArgError err; ArgMap (Some md)] err md _ ids w2 eq_refl
                (lookup_insert_eq _ _ _) Hwf)
      as (r & w' & Hrun' & _ & _ & _ & _ & [Hem' _]).
    exists tt, w'. unfold bind at 1.
    change (new_map (<["operation" := GoString operation]> ∅) wf) with (Ret md, w2).
    cbv beta iota. unfold bind at 1. rewrite Hrun'. split; [done|exact Hem']. }
  assert (HFS : exists ferr wf,
    FinishSpan c spanCtx w = (Ret ferr, wf) /\
    carriers wf = carriers w /\
    (GetTraceFromContext spanCtx = None ->
     ferr = Some (Errorf "no trace context found")) /\
    emitted wf = emitted w ++ finish_calls spanCtx ids).
  { unfold FinishSpan, finish_calls. pose proof Hids as Hids0.
    unfold entry_ids in Hids0.
    destruct (GetTraceFromContext spanCtx) as [p|].
    - unfold bind, load_TraceContext.
      destruct (carriers w !! p) as [tc|]; [|discriminate].
      injection Hids0 as <-. unfold endSpan.
      destruct (sendRequest_emits http_NewRequest c "POST"
                  ("/spans/" +:+ SpanID tc +:+ "/end") None None w eq_refl)
        as (ferr & wf & Hrun & (Hc & _) & [Hem _]).
      exists ferr, wf. split; [exact Hrun|]. split; [exact Hc|].
      split; [discriminate|exact Hem].
    - exists (Some (Errorf "no trace context found")), w.
      split; [done|]. split; [done|]. split; [done|]. by rewrite app_nil_r. }
  destruct HFS as (ferr & wf & Hfs & Hc & Hnone & Hem).
  assert (Hwf : entry_ids wf spanCtx = Some ids).
  { unfold entry_ids in *. by rewrite Hc. }
  exists ferr, wf.
  destruct ferr as [err|].
  - destruct (Hlog err wf Hwf) as (r & w' & Hrun' & Hem').
    exists w'. split; [exact Hfs|]. split; [|by split].
    unfold finish_deferred. unfold bind at 1. rewrite Hfs. cbv beta iota.
    destruct r. exact Hrun'.
  - exists wf. split; [exact Hfs|]. split; [|split; [done|split; [exact Hem|]]].
    + unfold finish_deferred. unfold bind at 1. by rewrite Hfs.
    + simpl. by rewrite app_nil_r.
Qed.

(** One call of the wrapper, step by step. *)
Lemma Instrument_result operation fn ctx w spanCtx0 serr w0 fnErr w1 ids :
  StartSpan c ctx operation w = (Ret (spanCtx0, serr), w0) ->
  let spanCtx := match serr with Some _ => ctx | None => spanCtx0 end in
  fn spanCtx (add_invoked spanCtx w0) = (Ret fnErr, w1) ->
  entry_ids w1 spanCtx = Some ids ->
  exists r wl ferr wf w2,
    log_completion http_NewRequest c operation spanCtx fnErr
      (elapsed (clock w0) (clock w1)) w1 = (Ret r, wl) /\
    FinishSpan c spanCtx wl = (Ret ferr, wf) /\
    (GetTraceFromContext spanCtx = None ->
     ferr = Some (Errorf "no trace context found")) /\
    Instrument c operation fn ctx w = (Ret fnErr, w2) /\
    emitted w2 =
      emitted w1 ++
      completion_log c operation ids fnErr (elapsed (clock w0) (clock w1))
        (fresh (dom (maps w1)))
      :: (finish_calls spanCtx ids ++ finish_failure c operation ids ferr wf).
Proof.
  intros Hstart spanCtx Hfn Hids.
  destruct (completion_effect operation spanCtx fnErr
              (elapsed (clock w0) (clock w1)) ids w1 Hids)
    as (r & wl & Hlog & Hc & _ & _ & [Hem _]).
  assert (Hids' : entry_ids wl spanCtx = Some ids).
  { unfold entry_ids in *. by rewrite Hc. }
  destruct (finish_deferred_result operation spanCtx ids wl Hids')
    as (ferr & wf & w2 & Hfs & Hfin & Hnone & Hemf & Hem2).
  exists r, wl, ferr, wf, w2.
  split; [exact Hlog|]. split; [exact Hfs|]. split; [exact Hnone|].
  split.
  { unfold Instrument. unfold bind at 1. rewrite Hstart. cbv beta iota.
    fold spanCtx. unfold with_defer.
    unfold bind at 1. unfold time_Now. cbv beta iota.
    unfold bind at 1. unfold modify. cbv beta iota.
    unfold bind at 1. rewrite Hfn. cbv beta iota.
    unfold bind at 1. unfold time_Since. cbv beta iota.
    change (clock (add_invoked spanCtx w0)) with (clock w0).
    fold (elapsed (clock w0) (clock w1)).
    unfold bind at 1. unfold log_completion in Hlog. rewrite Hlog. cbv beta iota.
    unfold ret at 1. by rewrite Hfin. }
  rewrite Hem2, Hemf, Hem. by rewrite <- !app_assoc.
Qed.

Lemma completion_log_is_completion operation ids fnErr duration md :
  is_completion_log operation
    (completion_log c operation ids fnErr duration md) = true.
Proof.
  destruct fnErr; unfold is_completion_log; cbn [completion_log log_emission
    log_message em_data LogEntry_Message]; rewrite String.eqb_refl;
    by rewrite ?orb_true_r.
Qed.

Lemma finish_failure_log_not_completion operation ids err md :
  is_completion_log operation (finish_failure_log c operation ids err md) = false.
Proof. reflexivity. Qed.

Lemma end_span_emission_not_completion operation spanID :
  is_completion_log operation (end_span_emission spanID) = false.
Proof. reflexivity. Qed.

(** C3 (amended): when StartSpan returns and the wrapped function returns
    (the carrier of its context still in the heap, as it always is in Go),
    the wrapper returns the error of the function as it is.  Before the
    function it has called the transport at most to create the span; after
    it, it hands the transport exactly one completion log: at INFO level
    after a success, at ERROR level with the message of the failure and the
    elapsed milliseconds after a failure.  What follows comes from finishing
    the span and is no completion log: the end-span call, and one ERROR log
    "Failed to finish span" when finishing failed, which it always does on a
    context without carrier.  The failure log is tied to FinishSpan: run on
    the world [wl] the completion log has left, FinishSpan returns [ferr];
    what follows the completion log is the end-span call (on a context with
    a carrier) and then the failure log, carrying that error, exactly when
    [ferr] is an error. *)
Theorem Instrument_completion_log operation fn ctx w spanCtx0 serr w0 fnErr w1 ids :
  StartSpan c ctx operation w = (Ret (spanCtx0, serr), w0) ->
  let spanCtx := match serr with Some _ => ctx | None => spanCtx0 end in
  fn spanCtx (add_invoked spanCtx w0) = (Ret fnErr, w1) ->
  entry_ids w1 spanCtx = Some ids ->
  exists w2 completion finish r wl ferr wf,
    Instrument c operation fn ctx w = (Ret fnErr, w2) /\
    (emitted w0 = emitted w \/
     exists span,
       emitted w0 = emitted w ++ [mkEmission "POST" "/spans" (Some (PSpan span))]) /\
    emitted w2 = emitted w1 ++ completion :: finish /\
    completion =
      completion_log c operation ids fnErr (elapsed (clock w0) (clock w1))
        (fresh (dom (maps w1))) /\
    log_level completion =
      Some (match fnErr with Some _ => "ERROR" | None => "INFO" end) /\
    List.filter (is_completion_log operation) (completion :: finish) = [completion] /\
    (finish = [end_span_emission (snd ids)] \/
     (exists err md,
         finish = [end_span_emission (snd ids);
                   finish_failure_log c operation ids err md]) \/
     (exists md,
         GetTraceFromContext spanCtx = None /\
         finish = [finish_failure_log c operation ids
                     (Errorf "no trace context found") md])) /\
    log_completion http_NewRequest c operation spanCtx fnErr
      (elapsed (clock w0) (clock w1)) w1 = (Ret r, wl) /\
    FinishSpan c spanCtx wl = (Ret ferr, wf) /\
    (GetTraceFromContext spanCtx = None ->
     ferr = Some (Errorf "no trace context found")) /\
    finish =
      finish_calls spanCtx ids ++
      match ferr with
      | Some err =>
          [finish_failure_log c operation ids err (fresh (dom (maps wf)))]
      | None => []
      end.
Proof.
  intros Hstart spanCtx Hfn Hids.
  destruct (Instrument_effect operation fn ctx w spanCtx0 serr w0 fnErr w1 ids
              Hstart Hfn Hids)
    as (w2 & finish & Hrun & _ & _ & _ & [Hem _] & Hshape).
  fold spanCtx in Hshape.
  destruct (Instrument_result operation fn ctx w spanCtx0 serr w0 fnErr w1 ids
              Hstart Hfn Hids)
    as (r & wl & ferr & wf & w2' & Hlog & Hfs & Hnone & Hrun' & Hem').
  fold spanCtx in Hlog, Hfs, Hnone, Hem'.
  assert (Hfinish : finish =
            finish_calls spanCtx ids ++ finish_failure c operation ids ferr wf).
  { rewrite Hrun in Hrun'. injection Hrun' as <-. rewrite Hem in Hem'.
    apply app_inv_head in Hem'. by injection Hem'. }
  exists w2, (completion_log c operation ids fnErr (elapsed (clock w0) (clock w1))
                (fresh (dom (maps w1)))), finish, r, wl, ferr, wf.
  split; [exact Hrun|].
  split; [exact (StartSpan_emitted http_NewRequest c ctx operation w _ w0 Hstart)|].
  split; [exact Hem|]. split; [done|].
  split; [by destruct fnErr|].
  assert (Hfin : List.filter (is_completion_log operation) finish = []
                 /\ (finish = [end_span_emission (snd ids)] \/
     (exists err md,
         finish = [end_span_emission (snd ids);
                   finish_failure_log c operation ids err md]) \/
     (exists md,
         GetTraceFromContext spanCtx = None /\
         finish = [finish_failure_log c operation ids
                     (Errorf "no trace context found") md]))).
  { destruct (GetTraceFromContext spanCtx) as [p|].
    - destruct Hshape as [->|(err & md & ->)]; split; auto.
      right. left. by exists err, md.
    - destruct Hshape as (md & ->). split; auto.
      right. right. by exists md. }
  destruct Hfin as [Hnocompletion Hcases].
  split; [cbn [List.filter]; rewrite completion_log_is_completion;
          by rewrite Hnocompletion|].
  split; [exact Hcases|]. split; [exact Hlog|]. split; [exact Hfs|].
  split; [exact Hnone|exact Hfinish].
Qed.

(** C4: on a context without carrier the wrapper runs the function on that
    same context, from the world in which this one invocation was recorded,
    and records no other; it returns what the function returned; and after
    the function it calls the transport exactly twice: for the completion
    log, and for the ERROR log that reports that no span could be finished.
    No request other than those of these two logs reaches the collector. *)
Theorem Instrument_without_trace operation fn ctx w fnErr w1 :
  GetTraceFromContext ctx = None ->
  fn ctx (add_invoked ctx w) = (Ret fnErr, w1) ->
  exists w2 md,
    Instrument c operation fn ctx w = (Ret fnErr, w2) /\
    invoked w2 = invoked w1 /\
    emits c w1 w2
      [completion_log c operation ("", "") fnErr (elapsed (clock w) (clock w1))
         (fresh (dom (maps w1)));
       finish_failure_log c operation ("", "")
         (Errorf "no trace context found") md].
Proof.
  intros Hg Hfn.
  assert (Hstart : StartSpan c ctx operation w =
                     (Ret (ctx, Some (Errorf "no trace context found")), w)).
  { unfold StartSpan. by rewrite Hg. }
  assert (Hids : entry_ids w1 ctx = Some ("", "")).
  { unfold entry_ids. by rewrite Hg. }
  destruct (Instrument_effect operation fn ctx w ctx _ w fnErr w1 ("", "")
              Hstart Hfn Hids)
    as (w2 & finish & Hrun & _ & _ & Hi & Hem & Hshape).
  cbv zeta in Hshape. rewrite Hg in Hshape. destruct Hshape as (md & ->).
  by exists w2, md.
Qed.

End Wrapper.

(** ** Responses without a usable id *)

(** C1 (fails on the code): a 2xx answer to a creation request whose body has
    no "id", or an "id" that is no string, makes StartTrace and StartSpan
    panic at the unchecked type assertion; the panic also leaves the wrapper
    before the wrapped function runs. *)
Theorem creation_without_string_id_panics :
  run (StartTrace accept_all no_id_client Background "op") empty_world =
    Panic "interface conversion: interface {} is nil, not string" /\
  run (StartTrace accept_all numeric_id_client Background "op") empty_world =
    Panic "interface conversion: interface {} is not string" /\
  run (StartSpan accept_all no_id_client traced_ctx "op") traced_world =
    Panic "interface conversion: interface {} is nil, not string" /\
  run (Instrument accept_all no_id_client "op" (fun _ => ret None) traced_ctx)
    traced_world =
    Panic "interface conversion: interface {} is nil, not string" /\
  invoked (exec (Instrument accept_all no_id_client "op" (fun _ => ret None)
                   traced_ctx) traced_world) = [].
Proof. repeat split; reflexivity. Qed.

(** ** The statements at concrete inputs *)

Lemma no_carrier_no_network_call_witness :
  GetTraceFromContext Background = None /\
  sent (exec (StartSpan accept_all stub_client Background "op") empty_world) = [] /\
  FinishSpan accept_all stub_client Background empty_world =
    (Ret (Some (Errorf "no trace context found")), empty_world).
Proof.
  destruct (no_carrier_no_network_call accept_all stub_client Background "op"
              empty_world eq_refl) as (H1 & H2 & _).
  split; [reflexivity|]. split; [|exact H2].
  unfold exec. by rewrite H1.
Defined.

Lemma StartTrace_root_span_failure_witness :
  exists w2,
    StartTrace accept_all span_failing_client Background "op" empty_world =
      (Ret (Background, Some 1%positive,
            Some (Errorf "API request failed with status 500")), w2).
Proof.
  assert (Ht : sendTrace accept_all span_failing_client (mkTrace "" "svc") empty_world =
                 (Ret (Some {[ "id" := JStr "t1" ]}, None), half_traced_world))
    by (vm_compute; reflexivity).
  eexists.
  refine (StartTrace_root_span_failure accept_all span_failing_client Background
            "op" empty_world _ half_traced_world "t1" None _ _ Ht _ _).
  - vm_compute; reflexivity.
  - vm_compute; reflexivity.
Defined.

Lemma parent_child_linkage_witness :
  exists ctx2 p w2 ctx3 w3,
    StartTrace accept_all stub_client Background "op" empty_world =
      (Ret (ctx2, Some p, None), w2) /\
    read_carrier w2 ctx2 = Some (mkTraceContext "t1" "s1") /\
    StartSpan accept_all stub_client ctx2 "child" w2 = (Ret (ctx3, None), w3) /\
    read_carrier w3 ctx3 = Some (mkTraceContext "t1" "s2").
Proof.
  destruct (parent_child_linkage accept_all stub_client Background "op" "child"
              empty_world eq_refl eq_refl eq_refl eq_refl (fun _ => eq_refl))
    as (ctx2 & p & w2 & ctx3 & w3 & H1 & _ & H2 & H3 & H4 & _).
  exists ctx2, p, w2, ctx3, w3. split; [exact H1|]. split; [exact H2|].
  split; [exact H3|exact H4].
Defined.

Lemma StartSpan_child :
  StartSpan accept_all stub_client traced_ctx "child" traced_world =
    (Ret (child_ctx, None), child_world).
Proof. vm_compute. reflexivity. Qed.

Lemma StartSpan_fresh_carrier_witness :
  exists p',
    GetTraceFromContext child_ctx = Some p' /\
    carriers traced_world !! p' = None /\
    read_carrier child_world child_ctx = Some (mkTraceContext "t1" "s2") /\
    read_carrier child_world traced_ctx = Some (mkTraceContext "t1" "s1").
Proof.
  destruct (StartSpan_fresh_carrier accept_all stub_client traced_ctx "child"
               traced_world child_ctx child_world StartSpan_child)
    as (p & tc & p' & st & b & resp & id & _ & _ & _ & _ & _ & Hg & Hn & _ & _ & Hr).
  exists p'. split; [exact Hg|]. split; [exact Hn|].
  split; [vm_compute; reflexivity|].
  apply Hr. vm_compute. reflexivity.
Defined.

Lemma SendMetric_service_name_witness :
  exists err w' sentMetric,
    SendMetric accept_all stub_client (sample_metric "") empty_world = (Ret err, w') /\
    emitted w' = [mkEmission "POST" "/metrics" (Some (PMetric sentMetric None))] /\
    Metric_ServiceName sentMetric = "svc".
Proof.
  destruct (SendMetric_service_name accept_all stub_client (sample_metric "") None
              empty_world eq_refl)
    as (err & w' & sentMetric & Hrun & _ & [Hem _] & Hname & _).
  exists err, w', sentMetric. split; [exact Hrun|]. split; [exact Hem|].
  rewrite (Hname eq_refl). reflexivity.
Defined.

Lemma LogError_mutates_callers_map_witness :
  exists r w',
    LogError accept_all stub_client Background "msg"
      [ArgError (Errorf "boom"); ArgMap (Some 1%positive)] world_with_map = (Ret r, w') /\
    maps w' =
      <[1%positive := <["error" := GoString "boom"]>
                        (<["error" := GoString "old"]> {[ "a" := GoInt 1 ]})]>
        (maps world_with_map).
Proof.
  refine (LogError_mutates_callers_map accept_all stub_client Background "msg"
            [ArgError (Errorf "boom"); ArgMap (Some 1%positive)] (Errorf "boom")
            1%positive _ ("", "") world_with_map eq_refl eq_refl _ eq_refl).
  vm_compute. reflexivity.
Defined.

Lemma LogError_last_of_each_type_witness :
  exists r w',
    LogError accept_all stub_client Background "msg"
      [ArgMap (Some 1%positive); ArgError (Errorf "first"); ArgError (Errorf "boom")]
      world_with_map = (Ret r, w') /\
    emits stub_client world_with_map w'
      [log_emission stub_client "ERROR" "msg" ("", "") 1%positive
         (<["error" := GoString "boom"]>
            (<["error" := GoString "old"]> {[ "a" := GoInt 1 ]}))].
Proof.
  destruct (LogError_last_of_each_type accept_all stub_client Background "msg"
              world_with_map) as (_ & _ & H).
  refine (H [ArgMap (Some 1%positive); ArgError (Errorf "first"); ArgError (Errorf "boom")]
            (Errorf "boom") 1%positive _ ("", "") eq_refl eq_refl _ eq_refl).
  vm_compute. reflexivity.
Defined.

(** The claim of C5 fails on the code: of two errors the second is the one
    whose message is injected. *)
Lemma LogError_first_error_does_not_win :
  let args := [ArgError (Errorf "first"); ArgError (Errorf "second")] in
  scan args <> scan_first_wins args /\
  injected_error
    (exec (LogError accept_all stub_client Background "msg" args) empty_world) =
    Some (GoString "second").
Proof. split; [discriminate|vm_compute; reflexivity]. Qed.

Lemma Instrument_completion_log_witness :
  exists w2 completion finish,
    Instrument accept_all stub_client "child" (fun _ => ret (Some (Errorf "boom")))
      traced_ctx traced_world = (Ret (Some (Errorf "boom")), w2) /\
    log_level completion = Some "ERROR" /\
    List.filter (is_completion_log "child") (completion :: finish) = [completion].
Proof.
  assert (Hids : entry_ids (add_invoked child_ctx child_world) child_ctx =
                   Some ("t1", "s2")) by (vm_compute; reflexivity).
  destruct (Instrument_completion_log accept_all stub_client "child"
               (fun _ => ret (Some (Errorf "boom"))) traced_ctx traced_world
               child_ctx None child_world (Some (Errorf "boom"))
               (add_invoked child_ctx child_world) ("t1", "s2")
               StartSpan_child eq_refl Hids)
    as (w2 & completion & finish & r & wl & ferr & wf &
        Hrun & _ & _ & _ & Hlevel & Hone & _).
  exists w2, completion, finish.
  split; [exact Hrun|]. split; [exact Hlevel|exact Hone].
Defined.

(** The claim of C3 fails on the code: the wrapped function succeeds on a
    context without trace, and an ERROR log follows the INFO completion
    log. *)
Lemma Instrument_success_followed_by_error_log :
  let call := Instrument accept_all stub_client "op" (fun _ => ret None) Background in
  run call empty_world = Ret None /\
  omap log_level (emitted (exec call empty_world)) = ["INFO"; "ERROR"].
Proof. split; vm_compute; reflexivity. Qed.

Lemma Instrument_without_trace_witness :
  exists w2 md,
    Instrument accept_all stub_client "op" (fun _ => ret (Some (Errorf "boom")))
      Background empty_world = (Ret (Some (Errorf "boom")), w2) /\
    invoked w2 = [Background] /\
    emits stub_client (add_invoked Background empty_world) w2
      [completion_log stub_client "op" ("", "") (Some (Errorf "boom"))
         (elapsed 0 0) (fresh (dom (∅ : gmap positive (gmap string GoValue))));
       finish_failure_log stub_client "op" ("", "")
         (Errorf "no trace context found") md].
Proof.
  exact (Instrument_without_trace accept_all stub_client "op"
           (fun _ => ret (Some (Errorf "boom"))) Background empty_world
           (Some (Errorf "boom")) (add_invoked Background empty_world)
           eq_refl eq_refl).
Defined.

(** ** Further properties of the transport *)

Section TransportMore.

Variable http_NewRequest : string -> string -> option GoError.
Variable c : Client.

Abbreviation sendRequestWithResponse := (sendRequestWithResponse http_NewRequest).
Abbreviation sendRequest := (sendRequest http_NewRequest).

(** Whatever its outcome, a call of the transport changes nothing but the
    two logs, and hands at most one request to the HTTP client. *)
Lemma transport_any method path data response o w w' :
  sendRequestWithResponse c method path data response w = (o, w') ->
  same_store w w' /\
  (sent w' = sent w \/ exists body, sent w' = sent w ++ [request c method path body]).
Proof.
  unfold sendRequestWithResponse, bind.
  destruct (read_data data w) as [[body|msg] w0] eqn:Hd;
    pose proof (read_data_pure _ _ _ _ Hd) as ->.
  2: { intros [= <- <-]. split; [by repeat split|by left]. }
  simpl.
  destruct (marshal_error body).
  { intros [= <- <-]. split; [by repeat split|by left]. }
  destruct (http_NewRequest method (endpoint c +:+ path)).
  { intros [= <- <-]. split; [by repeat split|by left]. }
  unfold Do. simpl. fold (headers c). fold (request c method path body).
  assert (Hr : forall x,
    (Ret x, add_sent (request c method path body)
              (add_emitted (mkEmission method path body) w)) = (o, w') ->
    same_store w w' /\
    (sent w' = sent w \/ exists body, sent w' = sent w ++ [request c method path body])).
  { intros x [= <- <-]. split; [by repeat split|]. right. by exists body. }
  destruct (client c _ _) as [e|st b]; [apply Hr|].
  destruct ((st <? 200) || (st >=? 300)); [apply Hr|].
  destruct response; [|apply Hr].
  destruct (json_Decode b); apply Hr.
Qed.

(** X1: a call that asks for no response body (logs, metrics, the two end
    calls) reports success exactly when the data could be marshalled, the
    request could be built and the collector answered with a 2xx status;
    the body of the answer plays no part. *)
Theorem sendRequest_succeeds_iff method path data body w :
  read_data data w = (Ret body, w) ->
  (run (sendRequest c method path data) w = Ret None <->
   marshal_error body = None /\
   http_NewRequest method (endpoint c +:+ path) = None /\
   exists st b,
     client c (sent w) (request c method path body) = Response st b /\ in_2xx st).
Proof.
  intros Hd. unfold run, sendRequest, sendRequestWithResponse, bind.
  rewrite Hd. simpl.
  destruct (marshal_error body) as [e|].
  { simpl. split; [discriminate|]. by intros [? _]. }
  destruct (http_NewRequest method (endpoint c +:+ path)) as [e|].
  { simpl. split; [discriminate|]. by intros (_ & ? & _). }
  unfold Do. simpl. fold (headers c). fold (request c method path body).
  destruct (client c _ _) as [e|st b].
  { simpl. split; [discriminate|]. by intros (_ & _ & st & b & ? & _). }
  unfold in_2xx.
  destruct (Z.ltb_spec st 200); destruct (Z.geb_spec st 300); simpl.
  - split; [discriminate|]. intros (_ & _ & st' & b' & [= <- <-] & ?). lia.
  - split; [discriminate|]. intros (_ & _ & st' & b' & [= <- <-] & ?). lia.
  - split; [discriminate|]. intros (_ & _ & st' & b' & [= <- <-] & ?). lia.
  - split; [|done]. intros _. split; [done|]. split; [done|].
    exists st, b. split; [done|lia].
Qed.

(** X2: an answer with a status outside 200..299 (a redirect or an
    informational status included) is an error "API request failed with
    status N"; the request was made, and the body is not decoded even when a
    response was asked for. *)
Theorem transport_rejects_non_2xx method path data response body st b w :
  read_data data w = (Ret body, w) ->
  marshal_error body = None ->
  http_NewRequest method (endpoint c +:+ path) = None ->
  client c (sent w) (request c method path body) = Response st b ->
  ~ in_2xx st ->
  sendRequestWithResponse c method path data response w =
    (Ret (None, Some (Errorf ("API request failed with status " +:+ pretty st))),
     add_sent (request c method path body)
       (add_emitted (mkEmission method path body) w)).
Proof.
  intros Hd Hm Hn Hc Hst. unfold sendRequestWithResponse, bind.
  rewrite Hd. simpl. rewrite Hm, Hn. unfold Do. simpl.
  fold (headers c). fold (request c method path body). rewrite Hc.
  unfold in_2xx in Hst.
  destruct (Z.ltb_spec st 200); destruct (Z.geb_spec st 300); simpl; try done.
  lia.
Qed.

End TransportMore.

(** ** Further properties of the trace and span lifecycle *)

Section TracingMore.

Variable http_NewRequest : string -> string -> option GoError.
Variable c : Client.

Abbreviation sendRequestWithResponse := (sendRequestWithResponse http_NewRequest).
Abbreviation sendRequest := (sendRequest http_NewRequest).
Abbreviation sendTrace := (sendTrace http_NewRequest).
Abbreviation sendSpan := (sendSpan http_NewRequest).
Abbreviation StartTrace := (StartTrace http_NewRequest).
Abbreviation StartSpan := (StartSpan http_NewRequest).
Abbreviation FinishSpan := (FinishSpan http_NewRequest).
Abbreviation FinishTrace := (FinishTrace http_NewRequest).
Abbreviation Log := (Log http_NewRequest).
Abbreviation SendMetric := (SendMetric http_NewRequest).

Lemma posts_refl n w : posts c n w w.
Proof. exists []. rewrite app_nil_r. repeat split; [constructor|simpl; lia]. Qed.

Lemma posts_trans n m w w1 w2 :
  posts c n w w1 -> posts c m w1 w2 -> posts c (n + m) w w2.
Proof.
  intros (rs1 & H1 & F1 & L1) (rs2 & H2 & F2 & L2). exists (rs1 ++ rs2).
  split; [by rewrite H2, H1, app_assoc|]. split; [by apply Forall_app|].
  rewrite length_app. lia.
Qed.

Lemma posts_same_sent n w w1 w2 :
  sent w2 = sent w1 -> posts c n w w1 -> posts c n w w2.
Proof. intros E (rs & H & F & L). exists rs. by rewrite E. Qed.

Lemma transport_posts path data response o w w' :
  sendRequestWithResponse c "POST" path data response w = (o, w') ->
  same_store w w' /\ posts c 1 w w'.
Proof.
  intros H. apply transport_any in H as [Hst [Hs|[body Hs]]]; split; auto.
  - exists []. rewrite app_nil_r. repeat split; [done|constructor|simpl; lia].
  - exists [request c "POST" path body]. split; [done|]. split; [|simpl; lia].
    constructor; [|constructor]. repeat split. by exists path.
Qed.

Lemma sendRequest_posts path data o w w' :
  sendRequest c "POST" path data w = (o, w') ->
  same_store w w' /\ posts c 1 w w'.
Proof.
  unfold sendRequest, bind.
  destruct (sendRequestWithResponse c "POST" path data false w)
    as [[[res err]|msg] w1] eqn:H; apply transport_posts in H;
    by intros [= <- <-].
Qed.

Lemma same_store_extends w w' : same_store w w' -> extends_store w w'.
Proof. intros (Hc & Hm & Hk & Hi). repeat split; auto. by rewrite Hc. Qed.

Lemma insert_fresh_carrier (h : gmap positive TraceContext) x p tc :
  h !! p = Some tc -> <[fresh (dom h) := x]> h !! p = Some tc.
Proof.
  intros Hp. rewrite lookup_insert_ne; [done|].
  intros E. pose proof (is_fresh (dom h)) as Hf. rewrite E in Hf.
  apply Hf, elem_of_dom. eauto.
Qed.

(** What StartSpan does in every case. *)
Lemma StartSpan_any ctx operation o w w' :
  StartSpan c ctx operation w = (o, w') ->
  extends_store w w' /\ posts c 1 w w' /\
  (forall ctx' err, o = Ret (ctx', Some err) -> ctx' = ctx /\ same_store w w').
Proof.
  unfold StartSpan, bind.
  assert (Hnil : extends_store w w /\ posts c 1 w w)
    by (split; [apply same_store_extends; by repeat split|apply posts_refl]).
  destruct (GetTraceFromContext ctx) as [p|].
  2: { intros [= <- <-]. split; [apply Hnil|]. split; [apply Hnil|].
       intros ? ? [= <- _]. by repeat split. }
  unfold load_TraceContext.
  destruct (carriers w !! p) as [tc|].
  2: { intros [= <- <-]. split; [apply Hnil|]. split; [apply Hnil|]. done. }
  destruct (sendSpan c _ w) as [[[resp err]|msg] w1] eqn:Hs;
    apply transport_posts in Hs as [Hst Hp].
  2: { intros [= <- <-]. split; [by apply same_store_extends|]. by split. }
  destruct err as [err|].
  { intros [= <- <-]. split; [by apply same_store_extends|]. split; [done|].
    by intros ? ? [= <- _]. }
  destruct (index resp "id") as [[| | |id| |]|]; simpl;
    try (intros [= <- <-]; split; [by apply same_store_extends|]; by split).
  intros [= <- <-]. destruct Hst as (Hc & Hm & Hk & Hi).
  split; [|split; [exact Hp|done]].
  repeat split; auto. intros q tq Hq. simpl. rewrite Hc.
  by apply insert_fresh_carrier.
Qed.

(** What StartTrace does in every case. *)
Lemma StartTrace_any ctx operation o w w' :
  StartTrace c ctx operation w = (o, w') ->
  extends_store w w' /\ posts c 2 w w' /\
  (forall ctx' tp err, o = Ret (ctx', tp, Some err) ->
     ctx' = ctx /\
     match tp with
     | None => same_store w w'
     | Some p =>
         carriers w !! p = None /\
         exists id, carriers w' !! p = Some (mkTraceContext id "")
     end).
Proof.
  unfold StartTrace, bind.
  destruct (sendTrace c _ w) as [[[resp err]|msg] w1] eqn:Ht;
    apply transport_posts in Ht as [Hst1 Hp1].
  2: { intros [= <- <-]. split; [by apply same_store_extends|].
       split; [|done]. apply (posts_trans 1 1 w w1 w1 Hp1), posts_refl. }
  assert (Hp1' : posts c 2 w w1)
    by (apply (posts_trans 1 1 w w1 w1 Hp1), posts_refl).
  destruct err as [err|].
  { intros [= <- <-]. split; [by apply same_store_extends|]. split; [done|].
    by intros ? ? ? [= <- <- _]. }
  destruct (index resp "id") as [[| | |id| |]|]; simpl;
    try (intros [= <- <-]; split; [by apply same_store_extends|]; by split).
  unfold load_TraceContext. simpl. rewrite lookup_insert_eq.
  set (p := fresh (dom (carriers w1))).
  set (w2 := set_carriers (<[p := mkTraceContext id ""]> (carriers w1)) w1).
  destruct Hst1 as (Hc1 & Hm1 & Hk1 & Hi1).
  assert (Hfresh : carriers w !! p = None).
  { rewrite <- Hc1. apply fresh_carrier_unused. }
  assert (Hext2 : forall q tq, carriers w !! q = Some tq ->
                    carriers w2 !! q = Some tq).
  { intros q tq Hq. simpl. apply insert_fresh_carrier. by rewrite Hc1. }
  destruct (sendSpan c _ w2) as [[[spanResp err]|msg] w3] eqn:Hs;
    apply transport_posts in Hs as [(Hc3 & Hm3 & Hk3 & Hi3) Hp3].
  all: assert (Hp13 : posts c 2 w w3) by exact (posts_trans 1 1 w w1 w3 Hp1 Hp3).
  all: assert (Hext3 : extends_store w w3)
    by (split; [rewrite Hm3; exact Hm1|]; split; [rewrite Hk3; exact Hk1|];
        split; [rewrite Hi3; exact Hi1|]; intros q tq Hq; rewrite Hc3; auto).
  2: { intros [= <- <-]. split; [done|]. by split. }
  destruct err as [err|].
  { intros [= <- <-]. split; [done|]. split; [done|].
    intros ? ? ? [= <- <- _]. split; [done|]. split; [done|].
    exists id. rewrite Hc3. simpl. apply lookup_insert_eq. }
  destruct (index spanResp "id") as [[| | |sid| |]|]; simpl;
    try (intros [= <- <-]; split; [done|]; by split).
  unfold store_SpanID, bind, load_TraceContext. cbv beta. rewrite Hc3. simpl.
  rewrite lookup_insert_eq. simpl.
  intros [= <- <-]. split; [|split; [|done]].
  - split; [simpl; rewrite Hm3; exact Hm1|].
    split; [simpl; rewrite Hk3; exact Hk1|].
    split; [simpl; rewrite Hi3; exact Hi1|]. intros q tq Hq.
    simpl. rewrite Hc3. simpl. rewrite lookup_insert_ne; [by apply Hext2|].
    intros <-. congruence.
  - destruct Hp13 as (rs & H & F & L). by exists rs.
Qed.

(** X3: whatever they return, and even when they panic, StartTrace and
    StartSpan leave every carrier and every map that existed before as it
    was: the only carrier they write to is the one they allocate. *)
Theorem tracing_keeps_existing_carriers ctx operation w :
  extends_store w (exec (StartTrace c ctx operation) w) /\
  extends_store w (exec (StartSpan c ctx operation) w).
Proof.
  unfold exec. split.
  - destruct (StartTrace c ctx operation w) as [o w'] eqn:H.
    by apply StartTrace_any in H as [? _].
  - destruct (StartSpan c ctx operation w) as [o w'] eqn:H.
    by apply StartSpan_any in H as [? _].
Qed.

(** X4: whenever StartTrace returns an error, the context it returns is the
    one it was given.  When the pointer it returns is nil, no carrier was
    allocated; when it is not, it points to a carrier allocated by this
    call that has a trace id and an empty span id, attached to no
    context. *)
Theorem StartTrace_error_returns ctx operation w ctx' tp err w' :
  StartTrace c ctx operation w = (Ret (ctx', tp, Some err), w') ->
  ctx' = ctx /\
  match tp with
  | None => same_store w w'
  | Some p =>
      carriers w !! p = None /\
      exists id, carriers w' !! p = Some (mkTraceContext id "")
  end.
Proof.
  intros H. apply StartTrace_any in H as (_ & _ & H). exact (H _ _ _ eq_refl).
Qed.

(** X5: whenever StartSpan returns an error, the context it returns is the
    one it was given and no carrier was allocated or changed. *)
Theorem StartSpan_error_returns ctx operation w ctx' err w' :
  StartSpan c ctx operation w = (Ret (ctx', Some err), w') ->
  ctx' = ctx /\ same_store w w'.
Proof.
  intros H. apply StartSpan_any in H as (_ & _ & H). exact (H _ _ eq_refl).
Qed.

Lemma FinishSpan_any ctx o w w' :
  FinishSpan c ctx w = (o, w') -> same_store w w' /\ posts c 1 w w'.
Proof.
  unfold FinishSpan, bind, load_TraceContext.
  destruct (GetTraceFromContext ctx) as [p|];
    [|intros [= <- <-]; split; [by repeat split|apply posts_refl]].
  destruct (carriers w !! p) as [tc|];
    [|intros [= <- <-]; split; [by repeat split|apply posts_refl]].
  apply sendRequest_posts.
Qed.

Lemma FinishTrace_any ctx o w w' :
  FinishTrace c ctx w = (o, w') -> same_store w w' /\ posts c 1 w w'.
Proof.
  unfold FinishTrace, bind, load_TraceContext.
  destruct (GetTraceFromContext ctx) as [p|];
    [|intros [= <- <-]; split; [by repeat split|apply posts_refl]].
  destruct (carriers w !! p) as [tc|];
    [|intros [= <- <-]; split; [by repeat split|apply posts_refl]].
  apply sendRequest_posts.
Qed.

Lemma Log_any ctx level message metadata o w w' :
  Log c ctx level message metadata w = (o, w') ->
  same_store w w' /\ posts c 1 w w'.
Proof.
  unfold Log, bind, load_TraceContext.
  destruct (GetTraceFromContext ctx) as [p|]; [|apply sendRequest_posts].
  destruct (carriers w !! p) as [tc|];
    [|intros [= <- <-]; split; [by repeat split|apply posts_refl]].
  apply sendRequest_posts.
Qed.

(** X6: every request the client operations hand to the HTTP client is a
    POST to the endpoint followed by a path, with the headers Content-Type
    and X-API-Key; StartTrace makes at most two requests, every other
    operation at most one, whatever the collector answers: nothing is
    retried. *)
Theorem requests_are_well_formed w :
  (forall ctx operation, posts c 2 w (exec (StartTrace c ctx operation) w)) /\
  (forall ctx operation, posts c 1 w (exec (StartSpan c ctx operation) w)) /\
  (forall ctx, posts c 1 w (exec (FinishSpan c ctx) w)) /\
  (forall ctx, posts c 1 w (exec (FinishTrace c ctx) w)) /\
  (forall ctx level message metadata,
      posts c 1 w (exec (Log c ctx level message metadata) w)) /\
  (forall metric, posts c 1 w (exec (SendMetric c metric) w)).
Proof.
  unfold exec. repeat split; intros.
  - destruct (StartTrace c ctx operation w) as [o w'] eqn:H.
    by apply StartTrace_any in H as (_ & ? & _).
  - destruct (StartSpan c ctx operation w) as [o w'] eqn:H.
    by apply StartSpan_any in H as (_ & ? & _).
  - destruct (FinishSpan c ctx w) as [o w'] eqn:H.
    by apply FinishSpan_any in H as [_ ?].
  - destruct (FinishTrace c ctx w) as [o w'] eqn:H.
    by apply FinishTrace_any in H as [_ ?].
  - destruct (Log c ctx level message metadata w) as [o w'] eqn:H.
    by apply Log_any in H as [_ ?].
  - destruct (SendMetric c metric w) as [o w'] eqn:H.
    unfold SendMetric, sendMetric in H.
    by apply sendRequest_posts in H as [_ ?].
Qed.

Lemma FinishSpan_effect ctx p tc w :
  GetTraceFromContext ctx = Some p -> carriers w !! p = Some tc ->
  exists err w',
    FinishSpan c ctx w = (Ret err, w') /\ same_store w w' /\
    emits c w w' [end_span_emission (SpanID tc)].
Proof.
  intros Hg Hp. unfold FinishSpan, bind, load_TraceContext. rewrite Hg, Hp.
  exact (sendRequest_emits http_NewRequest c "POST" _ None None w eq_refl).
Qed.

Lemma FinishTrace_effect ctx p tc w :
  GetTraceFromContext ctx = Some p -> carriers w !! p = Some tc ->
  exists err w',
    FinishTrace c ctx w = (Ret err, w') /\ same_store w w' /\
    emits c w w' [end_trace_emission (TraceID tc)].
Proof.
  intros Hg Hp. unfold FinishTrace, bind, load_TraceContext. rewrite Hg, Hp.
  exact (sendRequest_emits http_NewRequest c "POST" _ None None w eq_refl).
Qed.

(** X7: on a context with a carrier, FinishSpan asks the collector to end
    the span named by the carrier and FinishTrace the trace named by it, each
    with one call without body; both return whatever the collector does, and
    neither changes the carrier: the context still names the finished
    span. *)
Theorem finish_targets_the_carrier ctx p tc w :
  GetTraceFromContext ctx = Some p -> carriers w !! p = Some tc ->
  (exists err w',
      FinishSpan c ctx w = (Ret err, w') /\ same_store w w' /\
      emits c w w' [end_span_emission (SpanID tc)]) /\
  (exists err w',
      FinishTrace c ctx w = (Ret err, w') /\ same_store w w' /\
      emits c w w' [end_trace_emission (TraceID tc)]).
Proof.
  intros Hg Hp. split; [by eapply FinishSpan_effect|by eapply FinishTrace_effect].
Qed.

(** X8: after a successful StartSpan, finishing in reverse order ends the
    right things: FinishSpan on the new context ends the span just created,
    FinishSpan on the context it was derived from ends the parent span, and
    FinishTrace ends the trace they share. *)
Theorem finish_in_reverse_order ctx operation w newCtx w1 :
  StartSpan c ctx operation w = (Ret (newCtx, None), w1) ->
  exists tc id e1 w2 e2 w3 e3 w4,
    read_carrier w ctx = Some tc /\
    read_carrier w1 newCtx = Some (mkTraceContext (TraceID tc) id) /\
    FinishSpan c newCtx w1 = (Ret e1, w2) /\
    FinishSpan c ctx w2 = (Ret e2, w3) /\
    FinishTrace c ctx w3 = (Ret e3, w4) /\
    emitted w4 =
      emitted w1 ++ [end_span_emission id; end_span_emission (SpanID tc);
                     end_trace_emission (TraceID tc)].
Proof.
  intros H.
  apply StartSpan_success_inv in H
    as (p & tc & st & b & resp & id & Hg & Hp & _ & _ & _ & _ & -> & ->).
  set (p' := fresh (dom (carriers w))).
  set (w1 := set_carriers _ _).
  assert (Hp' : carriers w1 !! p' = Some (mkTraceContext (TraceID tc) id))
    by apply lookup_insert_eq.
  assert (Hp1 : carriers w1 !! p = Some tc)
    by (by apply insert_fresh_carrier).
  destruct (FinishSpan_effect (WithValue ctx trace_key (CtxTrace (Some p')))
              p' _ w1 eq_refl Hp')
    as (e1 & w2 & Hf1 & (Hc2 & _) & [Hem1 _]).
  assert (Hp2 : carriers w2 !! p = Some tc) by (by rewrite Hc2).
  destruct (FinishSpan_effect ctx p tc w2 Hg Hp2)
    as (e2 & w3 & Hf2 & (Hc3 & _) & [Hem2 _]).
  assert (Hp3 : carriers w3 !! p = Some tc) by (by rewrite Hc3).
  destruct (FinishTrace_effect ctx p tc w3 Hg Hp3)
    as (e3 & w4 & Hf3 & _ & [Hem3 _]).
  exists tc, id, e1, w2, e2, w3, e3, w4.
  split; [unfold read_carrier; by rewrite Hg|].
  split; [exact Hp'|]. split; [exact Hf1|]. split; [exact Hf2|].
  split; [exact Hf3|].
  rewrite Hem3, Hem2, Hem1. by rewrite <- !app_assoc.
Qed.

(** X9: when the collector answers the trace creation and then the
    root-span creation with 2xx responses that name them, StartTrace
    succeeds: it has made exactly these two requests, in this order, the
    root span without parent, and returns a context whose carrier, at an
    address unused before, holds the two ids. *)
Theorem StartTrace_creates_trace_and_root_span
    ctx operation w st1 b1 resp1 tid st2 b2 resp2 sid :
  let trace := mkTrace "" (serviceName c) in
  let span := mkSpan "" tid "" (serviceName c) operation in
  let traceReq := request c "POST" "/traces" (Some (PTrace trace)) in
  let rootReq := request c "POST" "/spans" (Some (PSpan span)) in
  http_NewRequest "POST" (endpoint c +:+ "/traces") = None ->
  http_NewRequest "POST" (endpoint c +:+ "/spans") = None ->
  client c (sent w) traceReq = Response st1 b1 -> in_2xx st1 ->
  json_Decode b1 = inr resp1 -> index resp1 "id" = Some (JStr tid) ->
  client c (sent w ++ [traceReq]) rootReq = Response st2 b2 -> in_2xx st2 ->
  json_Decode b2 = inr resp2 -> index resp2 "id" = Some (JStr sid) ->
  exists newCtx p w',
    StartTrace c ctx operation w = (Ret (newCtx, Some p, None), w') /\
    GetTraceFromContext newCtx = Some p /\
    carriers w !! p = None /\
    carriers w' !! p = Some (mkTraceContext tid sid) /\
    sent w' = sent w ++ [traceReq; rootReq] /\
    emitted w' =
      emitted w ++ [mkEmission "POST" "/traces" (Some (PTrace trace));
                    mkEmission "POST" "/spans" (Some (PSpan span))].
Proof.
  intros trace span traceReq rootReq Hn1 Hn2 Hc1 Hs1 Hj1 Hi1 Hc2 Hs2 Hj2 Hi2.
  eexists _, _, _. split.
  { exact (StartTrace_success http_NewRequest c ctx operation w st1 b1 resp1 tid
             st2 b2 resp2 sid Hn1 Hn2 Hc1 Hs1 Hj1 Hi1 Hc2 Hs2 Hj2 Hi2). }
  split; [reflexivity|]. split; [apply fresh_carrier_unused|].
  split; [apply lookup_insert_eq|]. simpl. by rewrite <- !app_assoc.
Qed.

End TracingMore.

(** ** Further properties of logging and metrics *)

Section LoggingMore.

Variable http_NewRequest : string -> string -> option GoError.
Variable c : Client.

Abbreviation sendRequest := (sendRequest http_NewRequest).
Abbreviation StartSpan := (StartSpan http_NewRequest).
Abbreviation Log := (Log http_NewRequest).
Abbreviation LogInfo := (LogInfo http_NewRequest).
Abbreviation LogWarn := (LogWarn http_NewRequest).
Abbreviation LogDebug := (LogDebug http_NewRequest).
Abbreviation LogError := (LogError http_NewRequest).
Abbreviation SendMetric := (SendMetric http_NewRequest).

Lemma Log_effect_any_metadata ctx level message metadata content ids w :
  read_map metadata w = (Ret content, w) ->
  entry_ids w ctx = Some ids ->
  exists err w',
    Log c ctx level message metadata w = (Ret err, w') /\
    same_store w w' /\
    emits c w w' [log_entry_emission c level message ids metadata content].
Proof.
  intros Hmd Hids.
  assert (Hread : forall e, LogEntry_Metadata e = metadata ->
            read_data (Some (DLog e)) w = (Ret (Some (PLog e content)), w)).
  { intros e He. simpl. unfold bind. by rewrite He, Hmd. }
  unfold Log, entry_ids, bind in *.
  destruct (GetTraceFromContext ctx) as [p|].
  - unfold load_TraceContext.
    destruct (carriers w !! p) as [tc|]; [|discriminate].
    injection Hids as <-. simpl.
    by apply sendRequest_emits, Hread.
  - injection Hids as <-. simpl.
    by apply sendRequest_emits, Hread.
Qed.

(** X10: Log with a nil or live metadata map returns whatever the collector
    does, hands the transport exactly one entry, and writes to no map and no
    carrier.  The entry has the service name of the client, the level and
    message given, and the trace and span ids of the carrier of the context
    as they are at the call, both empty when the context has none. *)
Theorem Log_sends_one_entry ctx level message metadata content ids w :
  read_map metadata w = (Ret content, w) ->
  entry_ids w ctx = Some ids ->
  exists err w',
    Log c ctx level message metadata w = (Ret err, w') /\
    same_store w w' /\
    emits c w w' [log_entry_emission c level message ids metadata content].
Proof. apply Log_effect_any_metadata. Qed.

(** X11: LogInfo, LogWarn and LogDebug send one entry at the level INFO,
    WARN and DEBUG with the first map they are given, pay no attention to
    further maps, and each of the three sends nil metadata when given none;
    they write to no map. *)
Theorem level_helpers_use_first_map ctx message m rest content ids w :
  read_map m w = (Ret content, w) ->
  entry_ids w ctx = Some ids ->
  (exists err w',
      LogInfo c ctx message (m :: rest) w = (Ret err, w') /\ same_store w w' /\
      emits c w w' [log_entry_emission c "INFO" message ids m content]) /\
  (exists err w',
      LogWarn c ctx message (m :: rest) w = (Ret err, w') /\ same_store w w' /\
      emits c w w' [log_entry_emission c "WARN" message ids m content]) /\
  (exists err w',
      LogDebug c ctx message (m :: rest) w = (Ret err, w') /\ same_store w w' /\
      emits c w w' [log_entry_emission c "DEBUG" message ids m content]) /\
  (exists err w',
      LogInfo c ctx message [] w = (Ret err, w') /\ same_store w w' /\
      emits c w w' [log_entry_emission c "INFO" message ids None None]) /\
  (exists err w',
      LogWarn c ctx message [] w = (Ret err, w') /\ same_store w w' /\
      emits c w w' [log_entry_emission c "WARN" message ids None None]) /\
  (exists err w',
      LogDebug c ctx message [] w = (Ret err, w') /\ same_store w w' /\
      emits c w w' [log_entry_emission c "DEBUG" message ids None None]).
Proof.
  intros Hm Hids.
  split; [by apply Log_effect_any_metadata|].
  split; [by apply Log_effect_any_metadata|].
  split; [by apply Log_effect_any_metadata|].
  split; [by apply Log_effect_any_metadata|].
  split; by apply Log_effect_any_metadata.
Qed.

(** X12: LogError called without a map (or with the nil map as its last map)
    allocates a map of its own, at an address unused before, holding the
    message of the last error under "error" and nothing else, or nothing at
    all without an error: the metadata it sends is never nil, and no map that
    existed before is written to. *)
Theorem LogError_without_map_allocates ctx message args ids w :
  default None (last (maps_of args)) = None ->
  entry_ids w ctx = Some ids ->
  let md := fresh (dom (maps w)) in
  let content :=
    match last (errors_of args) with
    | Some e => <["error" := GoString (Error e)]> ∅
    | None => ∅
    end in
  exists r w',
    LogError c ctx message args w = (Ret r, w') /\
    maps w !! md = None /\
    maps w' = <[md := content]> (maps w) /\
    emits c w w' [log_emission c "ERROR" message ids md content].
Proof.
  intros Hm Hids md content.
  assert (Hfresh : maps w !! md = None) by apply not_elem_of_dom, is_fresh.
  unfold LogError. rewrite scan_last_wins, Hm. unfold bind at 1 2. simpl.
  fold md. set (w1 := set_maps (<[md := ∅]> (maps w)) w).
  destruct (last (errors_of args)) as [e|]; subst content.
  - unfold map_assign. simpl. rewrite lookup_insert_eq.
    set (w2 := set_maps _ w1).
    destruct (Log_effect http_NewRequest c ctx "ERROR" message md
                (<["error" := GoString (Error e)]> ∅) ids w2)
      as (r & w' & Hrun & (_ & Hmaps & _) & Hem);
      [apply lookup_insert_eq|exact Hids|].
    exists r, w'. split; [exact Hrun|]. split; [done|]. split; [|exact Hem].
    rewrite Hmaps. simpl. apply insert_insert_eq.
  - destruct (Log_effect http_NewRequest c ctx "ERROR" message md ∅ ids w1)
      as (r & w' & Hrun & (_ & Hmaps & _) & Hem);
      [apply lookup_insert_eq|exact Hids|].
    exists r, w'. split; [exact Hrun|]. split; [done|]. by split.
Qed.

(** X13: LogError called with a live map but without any error sends the
    map as it is and writes nothing into it. *)
Theorem LogError_without_error ctx message args md content ids w :
  last (errors_of args) = None ->
  last (maps_of args) = Some (Some md) ->
  maps w !! md = Some content ->
  entry_ids w ctx = Some ids ->
  exists r w',
    LogError c ctx message args w = (Ret r, w') /\
    same_store w w' /\
    emits c w w' [log_emission c "ERROR" message ids md content].
Proof.
  intros He Hm Hmd Hids.
  unfold LogError. rewrite scan_last_wins, He, Hm. unfold bind at 1 2. simpl.
  by apply Log_effect.
Qed.

Lemma errors_of_without_others args :
  errors_of (List.filter (fun a => negb (is_other a)) args) = errors_of args.
Proof.
  induction args as [|[e|m|v] args IH]; [done|..]; cbn; unfold errors_of in *;
    cbn; by rewrite ?IH.
Qed.

Lemma maps_of_without_others args :
  maps_of (List.filter (fun a => negb (is_other a)) args) = maps_of args.
Proof.
  induction args as [|[e|m|v] args IH]; [done|..]; cbn; unfold maps_of in *;
    cbn; by rewrite ?IH.
Qed.

(** X14: arguments of LogError that are neither an error nor a map, the nil
    interface (a nil error) included, are passed over without effect,
    wherever they stand in the list. *)
Theorem LogError_ignores_other_arguments ctx message args w :
  LogError c ctx message args w =
  LogError c ctx message (List.filter (fun a => negb (is_other a)) args) w.
Proof.
  unfold LogError.
  by rewrite !scan_last_wins, errors_of_without_others, maps_of_without_others.
Qed.

(** X15: after LogError was given a live map together with an error, the
    "error" key stays in that map: a later LogInfo with the same map sends
    it too. *)
Theorem error_key_stays_in_the_map ctx message message' e md content ids w :
  maps w !! md = Some content ->
  entry_ids w ctx = Some ids ->
  let content' := <["error" := GoString (Error e)]> content in
  exists r1 w1 r2 w2,
    LogError c ctx message [ArgError e; ArgMap (Some md)] w = (Ret r1, w1) /\
    LogInfo c ctx message' [Some md] w1 = (Ret r2, w2) /\
    emitted w2 =
      emitted w ++ [log_emission c "ERROR" message ids md content';
                    log_emission c "INFO" message' ids md content'].
Proof.
  intros Hmd Hids content'.
  destruct (LogError_effect http_NewRequest c ctx message
              [ArgError e; ArgMap (Some md)] e md content ids w eq_refl Hmd Hids)
    as (r1 & w1 & Hrun1 & Hc1 & Hm1 & _ & _ & [Hem1 _]).
  destruct (LogInfo_effect http_NewRequest c ctx message' md content' ids w1)
    as (r2 & w2 & Hrun2 & _ & [Hem2 _]).
  { rewrite Hm1. apply lookup_insert_eq. }
  { unfold entry_ids in *. by rewrite Hc1. }
  exists r1, w1, r2, w2. split; [exact Hrun1|]. split; [exact Hrun2|].
  rewrite Hem2, Hem1. by rewrite <- app_assoc.
Qed.

Lemma unsupported_metadata (content : gmap string GoValue) k tag :
  content !! k = Some (GoFunc tag) ->
  metadata_supported (Some content) = false.
Proof.
  intros Hk. simpl. apply not_true_is_false. intros Hall.
  rewrite forallb_forall in Hall.
  specialize (Hall (GoFunc tag)). simpl in Hall.
  assert (Hin : In (GoFunc tag) (snd <$> map_to_list content)); [|by apply Hall in Hin].
  apply list_elem_of_In, list_elem_of_fmap. exists (k, GoFunc tag).
  split; [done|]. by apply elem_of_map_to_list.
Qed.

(** X16: a log entry whose metadata map holds a value of a kind
    encoding/json refuses is not sent: Log returns the error "failed to
    marshal request: ..." and no request reaches the collector. *)
Theorem Log_unsupported_metadata ctx level message md content k tag ids w :
  maps w !! md = Some content ->
  content !! k = Some (GoFunc tag) ->
  entry_ids w ctx = Some ids ->
  exists w',
    Log c ctx level message (Some md) w =
      (Ret (Some (ErrorfW "failed to marshal request: "
                    (Errorf "json: unsupported type"))), w') /\
    sent w' = sent w /\ same_store w w'.
Proof.
  intros Hmd Hk Hids. pose proof (unsupported_metadata content k tag Hk) as Hun.
  assert (Hrun : forall e, LogEntry_Metadata e = Some md ->
    sendLog http_NewRequest c e w =
      (Ret (Some (ErrorfW "failed to marshal request: "
                    (Errorf "json: unsupported type"))),
       add_emitted (mkEmission "POST" "/logs" (Some (PLog e (Some content)))) w)).
  { intros e He. unfold sendLog, sendRequest, sendRequestWithResponse, bind.
    cbn [read_data]. unfold bind. rewrite He. cbn [read_map]. rewrite Hmd.
    simpl. simpl in Hun. by rewrite Hun. }
  unfold Log, entry_ids, bind in *.
  destruct (GetTraceFromContext ctx) as [p|].
  - unfold load_TraceContext.
    destruct (carriers w !! p) as [tc|]; [|discriminate].
    eexists. split; [by apply Hrun|]. by repeat split.
  - eexists. split; [by apply Hrun|]. by repeat split.
Qed.

(** X17: a metric whose duration is NaN or infinite is not sent: SendMetric
    returns the error "failed to marshal request: ..." and no request
    reaches the collector. *)
Theorem SendMetric_non_finite_duration metric content w :
  read_map (Metric_Metadata metric) w = (Ret content, w) ->
  float_supported (Metric_Duration metric) = false ->
  exists w',
    SendMetric c metric w =
      (Ret (Some (ErrorfW "failed to marshal request: "
                    (Errorf "json: unsupported value"))), w') /\
    sent w' = sent w /\ same_store w w'.
Proof.
  intros Hmd Hf. unfold SendMetric, sendMetric.
  set (m' := if String.eqb (Metric_ServiceName metric) "" then _ else _).
  assert (Hm' : Metric_Metadata m' = Metric_Metadata metric)
    by (subst m'; by destruct (String.eqb _ _)).
  assert (Hf' : float_supported (Metric_Duration m') = false)
    by (subst m'; by destruct (String.eqb _ _)).
  unfold sendRequest, sendRequestWithResponse, bind.
  cbn [read_data]. unfold bind. rewrite Hm', Hmd. simpl. rewrite Hf'. simpl.
  eexists. split; [done|]. by repeat split.
Qed.

End LoggingMore.

(** ** Further properties of the wrapper and of the context *)

Section WrapperMore.

Variable http_NewRequest : string -> string -> option GoError.
Variable c : Client.

Abbreviation StartSpan := (StartSpan http_NewRequest).
Abbreviation FinishSpan := (FinishSpan http_NewRequest).
Abbreviation Log := (Log http_NewRequest).
Abbreviation Instrument := (Instrument http_NewRequest).

(** X18: when StartSpan succeeds, the wrapper runs the function on the new
    context, whose carrier names the span just created; if the function
    leaves that carrier as it is, the completion log carries the ids of the
    new span, and the span the wrapper then asks the collector to end is the
    one it started. *)
Theorem Instrument_finishes_the_span_it_started
    operation fn ctx w newCtx w0 fnErr w1 :
  StartSpan c ctx operation w = (Ret (newCtx, None), w0) ->
  fn newCtx (add_invoked newCtx w0) = (Ret fnErr, w1) ->
  read_carrier w1 newCtx = read_carrier w0 newCtx ->
  exists tc id w2 finish,
    read_carrier w ctx = Some tc /\
    read_carrier w0 newCtx = Some (mkTraceContext (TraceID tc) id) /\
    Instrument c operation fn ctx w = (Ret fnErr, w2) /\
    invoked w2 = invoked w1 /\
    emits c w1 w2
      (completion_log c operation (TraceID tc, id) fnErr
         (elapsed (clock w0) (clock w1)) (fresh (dom (maps w1))) :: finish) /\
    (finish = [end_span_emission id] \/
     exists err md,
       finish = [end_span_emission id;
                 finish_failure_log c operation (TraceID tc, id) err md]).
Proof.
  intros Hstart Hfn Hkeep.
  pose proof Hstart as Hinv. apply StartSpan_success_inv in Hinv
    as (p & tc & st & b & resp & id & Hg & Hp & _ & _ & _ & _ & HnewCtx & Hw0).
  assert (Hnew0 : read_carrier w0 newCtx = Some (mkTraceContext (TraceID tc) id)).
  { rewrite HnewCtx, Hw0. unfold read_carrier.
    rewrite GetTraceFromContext_WithValue. simpl. apply lookup_insert_eq. }
  assert (Hgnew : GetTraceFromContext newCtx = Some (fresh (dom (carriers w))))
    by (by rewrite HnewCtx).
  assert (Hids : entry_ids w1 newCtx = Some (TraceID tc, id)).
  { rewrite Hnew0 in Hkeep. unfold read_carrier, entry_ids in *.
    rewrite Hgnew in *. by rewrite Hkeep. }
  destruct (Instrument_effect http_NewRequest c operation fn ctx w newCtx None
              w0 fnErr w1 (TraceID tc, id) Hstart Hfn Hids)
    as (w2 & finish & Hrun & _ & _ & Hi & Hem & Hshape).
  cbv zeta in Hshape. rewrite Hgnew in Hshape.
  exists tc, id, w2, finish.
  split; [unfold read_carrier; by rewrite Hg|]. by repeat (split; [done|]).
Qed.


(** X20: the "duration_ms" entry of a completion log is the int64 count of
    whole milliseconds between the two clock readings: for a clock that did
    not go back and a difference that fits an int64, the difference divided
    by 1,000,000 and rounded down, hence 0 for anything under a
    millisecond. *)
Theorem completion_duration_ms operation start stop :
  0 <= stop - start <= maxDuration ->
  completion_metadata operation (elapsed start stop) !! "duration_ms" =
    Some (GoInt ((stop - start) / 1000000)) /\
  (stop - start < 1000000 ->
   completion_metadata operation (elapsed start stop) !! "duration_ms" =
     Some (GoInt 0)).
Proof.
  intros [Hlo Hhi].
  assert (He : elapsed start stop = stop - start).
  { unfold elapsed, minDuration, maxDuration in *. lia. }
  assert (Hms : Milliseconds (stop - start) = (stop - start) / 1000000).
  { unfold Milliseconds. apply Z.quot_div_nonneg; lia. }
  unfold completion_metadata. rewrite He, Hms.
  rewrite lookup_insert_ne by done. rewrite lookup_insert_eq.
  split; [done|]. intros Hlt. by rewrite Z.div_small by lia.
Qed.

(** X21: a context value under any other key leaves the carrier visible,
    but a value of another type stored under the same string key
    "go-insight-trace" hides it: StartSpan and FinishSpan then answer "no
    trace context found" without a request, although an enclosing context
    holds a carrier. *)
Theorem carrier_is_found_by_string_key ctx w :
  (forall key v, key <> trace_key ->
     GetTraceFromContext (WithValue ctx key v) = GetTraceFromContext ctx) /\
  (forall v operation,
     let hidden := WithValue ctx trace_key (CtxOther v) in
     StartSpan c hidden operation w =
       (Ret (hidden, Some (Errorf "no trace context found")), w) /\
     FinishSpan c hidden w = (Ret (Some (Errorf "no trace context found")), w)).
Proof.
  split.
  - intros key v Hkey. unfold GetTraceFromContext. simpl.
    by rewrite decide_False.
  - intros v operation hidden. by split.
Qed.

End WrapperMore.

(** ** The further statements at concrete inputs *)

Lemma sendRequest_succeeds_iff_witness :
  run (sendRequest accept_all stub_client "POST" "/spans/s1/end" None) empty_world =
    Ret None.
Proof.
  apply (sendRequest_succeeds_iff accept_all stub_client "POST" "/spans/s1/end"
           None None empty_world eq_refl).
  split; [reflexivity|]. split; [reflexivity|].
  exists 204, None. split; [vm_compute; reflexivity|unfold in_2xx; lia].
Defined.

Lemma transport_rejects_non_2xx_witness :
  run (sendTrace accept_all redirecting_client (mkTrace "" "svc")) empty_world =
    Ret (None, Some (Errorf "API request failed with status 302")).
Proof.
  unfold run, sendTrace.
  rewrite (transport_rejects_non_2xx accept_all redirecting_client "POST" "/traces"
             (Some (DTrace (mkTrace "" "svc"))) true _ 302
             (Some (JObj [("id", JStr "t1")])) empty_world
             eq_refl eq_refl eq_refl).
  - vm_compute. reflexivity.
  - vm_compute. reflexivity.
  - unfold in_2xx. lia.
Defined.

Lemma StartTrace_error_returns_witness :
  carriers empty_world !! 1%positive = None /\
  exists id, carriers failed_trace_world !! 1%positive = Some (mkTraceContext id "").
Proof.
  assert (Hrun : StartTrace accept_all span_failing_client Background "op" empty_world =
                   (Ret (Background, Some 1%positive,
                         Some (Errorf "API request failed with status 500")),
                    failed_trace_world)) by (vm_compute; reflexivity).
  exact (proj2 (StartTrace_error_returns accept_all span_failing_client Background
                  "op" empty_world _ _ _ _ Hrun)).
Defined.

Lemma StartSpan_error_returns_witness :
  traced_ctx = traced_ctx /\ same_store traced_world unreachable_world.
Proof.
  assert (Hrun : StartSpan accept_all unreachable_client traced_ctx "child" traced_world =
                   (Ret (traced_ctx,
                         Some (ErrorfW "failed to send request: "
                                 (Errorf "connection refused"))),
                    unreachable_world)) by (vm_compute; reflexivity).
  exact (StartSpan_error_returns accept_all unreachable_client traced_ctx "child"
           traced_world _ _ _ Hrun).
Defined.

Lemma traced_carrier :
  carriers traced_world !! 1%positive = Some (mkTraceContext "t1" "s1").
Proof. vm_compute. reflexivity. Qed.

Lemma finish_targets_the_carrier_witness :
  (exists err w',
      FinishSpan accept_all stub_client traced_ctx traced_world = (Ret err, w') /\
      same_store traced_world w' /\
      emits stub_client traced_world w' [end_span_emission "s1"]) /\
  (exists err w',
      FinishTrace accept_all stub_client traced_ctx traced_world = (Ret err, w') /\
      same_store traced_world w' /\
      emits stub_client traced_world w' [end_trace_emission "t1"]).
Proof.
  exact (finish_targets_the_carrier accept_all stub_client traced_ctx 1%positive
           (mkTraceContext "t1" "s1") traced_world eq_refl traced_carrier).
Defined.

Lemma finish_in_reverse_order_witness :
  exists tc id w4,
    read_carrier traced_world traced_ctx = Some tc /\
    read_carrier child_world child_ctx = Some (mkTraceContext (TraceID tc) id) /\
    emitted w4 =
      emitted child_world ++ [end_span_emission id; end_span_emission (SpanID tc);
                              end_trace_emission (TraceID tc)].
Proof.
  destruct (finish_in_reverse_order accept_all stub_client traced_ctx "child"
              traced_world child_ctx child_world StartSpan_child)
    as (tc & id & e1 & w2 & e2 & w3 & e3 & w4 & H1 & H2 & _ & _ & _ & H3).
  exists tc, id, w4. split; [exact H1|]. split; [exact H2|exact H3].
Defined.

Lemma StartTrace_creates_trace_and_root_span_witness :
  exists newCtx p w',
    StartTrace accept_all stub_client Background "op" empty_world =
      (Ret (newCtx, Some p, None), w') /\
    carriers w' !! p = Some (mkTraceContext "t1" "s1").
Proof.
  assert (H200 : in_2xx 200) by (unfold in_2xx; lia).
  destruct (StartTrace_creates_trace_and_root_span accept_all stub_client Background
              "op" empty_world 200 _ _ "t1" 200 _ _ "s1"
              eq_refl eq_refl eq_refl H200 eq_refl (index_ok_id _ _ eq_refl)
              eq_refl H200 eq_refl (index_ok_id _ _ eq_refl))
    as (newCtx & p & w' & Hrun & _ & _ & Hp & _).
  exists newCtx, p, w'. split; [exact Hrun|exact Hp].
Defined.

Lemma traced_entry_ids : entry_ids traced_world traced_ctx = Some ("t1", "s1").
Proof. vm_compute. reflexivity. Qed.

Lemma Log_sends_one_entry_witness :
  exists err w',
    Log accept_all stub_client traced_ctx "INFO" "msg" None traced_world = (Ret err, w') /\
    same_store traced_world w' /\
    emits stub_client traced_world w'
      [log_entry_emission stub_client "INFO" "msg" ("t1", "s1") None None].
Proof.
  exact (Log_sends_one_entry accept_all stub_client traced_ctx "INFO" "msg" None None
           ("t1", "s1") traced_world eq_refl traced_entry_ids).
Defined.

Lemma caller_map :
  maps world_with_map !! 1%positive =
    Some (<["error" := GoString "old"]> {[ "a" := GoInt 1 ]}).
Proof. vm_compute. reflexivity. Qed.

Lemma caller_map_read :
  read_map (Some 1%positive) world_with_map =
    (Ret (Some (<["error" := GoString "old"]> {[ "a" := GoInt 1 ]})), world_with_map).
Proof. unfold read_map. by rewrite caller_map. Qed.

Lemma level_helpers_use_first_map_witness :
  exists err w',
    LogWarn accept_all stub_client Background "msg" [Some 1%positive; None]
      world_with_map = (Ret err, w') /\
    same_store world_with_map w' /\
    emits stub_client world_with_map w'
      [log_entry_emission stub_client "WARN" "msg" ("", "") (Some 1%positive)
         (Some (<["error" := GoString "old"]> {[ "a" := GoInt 1 ]}))].
Proof.
  exact (proj1 (proj2 (level_helpers_use_first_map accept_all stub_client Background
                         "msg" (Some 1%positive) [None] _ ("", "") world_with_map
                         caller_map_read eq_refl))).
Defined.

Lemma LogError_without_map_allocates_witness :
  exists r w',
    LogError accept_all stub_client Background "msg" [ArgError (Errorf "boom")]
      empty_world = (Ret r, w') /\
    maps empty_world !! fresh (dom (maps empty_world)) = None /\
    maps w' =
      <[fresh (dom (maps empty_world)) := <["error" := GoString "boom"]> ∅]>
        (maps empty_world) /\
    emits stub_client empty_world w'
      [log_emission stub_client "ERROR" "msg" ("", "")
         (fresh (dom (maps empty_world))) (<["error" := GoString "boom"]> ∅)].
Proof.
  exact (LogError_without_map_allocates accept_all stub_client Background "msg"
           [ArgError (Errorf "boom")] ("", "") empty_world eq_refl eq_refl).
Defined.

Lemma LogError_without_error_witness :
  exists r w',
    LogError accept_all stub_client Background "msg"
      [ArgOther GoNil; ArgMap (Some 1%positive)] world_with_map = (Ret r, w') /\
    same_store world_with_map w' /\
    emits stub_client world_with_map w'
      [log_emission stub_client "ERROR" "msg" ("", "") 1%positive
         (<["error" := GoString "old"]> {[ "a" := GoInt 1 ]})].
Proof.
  exact (LogError_without_error accept_all stub_client Background "msg"
           [ArgOther GoNil; ArgMap (Some 1%positive)] 1%positive _ ("", "")
           world_with_map eq_refl eq_refl caller_map eq_refl).
Defined.

Lemma error_key_stays_in_the_map_witness :
  exists r1 w1 r2 w2,
    LogError accept_all stub_client Background "failed"
      [ArgError (Errorf "boom"); ArgMap (Some 1%positive)] world_with_map =
      (Ret r1, w1) /\
    LogInfo accept_all stub_client Background "later" [Some 1%positive] w1 =
      (Ret r2, w2) /\
    emitted w2 =
      emitted world_with_map ++
      [log_emission stub_client "ERROR" "failed" ("", "") 1%positive
         (<["error" := GoString "boom"]>
            (<["error" := GoString "old"]> {[ "a" := GoInt 1 ]}));
       log_emission stub_client "INFO" "later" ("", "") 1%positive
         (<["error" := GoString "boom"]>
            (<["error" := GoString "old"]> {[ "a" := GoInt 1 ]}))].
Proof.
  exact (error_key_stays_in_the_map accept_all stub_client Background "failed"
           "later" (Errorf "boom") 1%positive _ ("", "") world_with_map
           caller_map eq_refl).
Defined.

Lemma func_map :
  maps world_with_func !! 1%positive = Some {[ "callback" := GoFunc 0 ]}.
Proof. vm_compute. reflexivity. Qed.

Lemma func_map_entry :
  ({[ "callback" := GoFunc 0 ]} : gmap string GoValue) !! "callback" = Some (GoFunc 0).
Proof. vm_compute. reflexivity. Qed.

Lemma Log_unsupported_metadata_witness :
  exists w',
    Log accept_all stub_client Background "INFO" "msg" (Some 1%positive)
      world_with_func =
      (Ret (Some (ErrorfW "failed to marshal request: "
                    (Errorf "json: unsupported type"))), w') /\
    sent w' = sent world_with_func /\ same_store world_with_func w'.
Proof.
  exact (Log_unsupported_metadata accept_all stub_client Background "INFO" "msg"
           1%positive _ "callback" 0%nat ("", "") world_with_func
           func_map func_map_entry eq_refl).
Defined.

Lemma SendMetric_non_finite_duration_witness :
  exists w',
    SendMetric accept_all stub_client nan_metric empty_world =
      (Ret (Some (ErrorfW "failed to marshal request: "
                    (Errorf "json: unsupported value"))), w') /\
    sent w' = sent empty_world /\ same_store empty_world w'.
Proof.
  exact (SendMetric_non_finite_duration accept_all stub_client nan_metric None
           empty_world eq_refl eq_refl).
Defined.

Lemma slow_failure_run :
  slow_failure child_ctx (add_invoked child_ctx child_world) =
    (Ret (Some (Errorf "boom")), slow_world).
Proof. vm_compute. reflexivity. Qed.

Lemma slow_world_carrier :
  read_carrier slow_world child_ctx = read_carrier child_world child_ctx.
Proof. vm_compute. reflexivity. Qed.

Lemma Instrument_finishes_the_span_it_started_witness :
  exists tc id w2 finish,
    read_carrier child_world child_ctx = Some (mkTraceContext (TraceID tc) id) /\
    Instrument accept_all stub_client "child" slow_failure traced_ctx traced_world =
      (Ret (Some (Errorf "boom")), w2) /\
    emits stub_client slow_world w2
      (completion_log stub_client "child" (TraceID tc, id) (Some (Errorf "boom"))
         (elapsed (clock child_world) (clock slow_world))
         (fresh (dom (maps slow_world))) :: finish).
Proof.
  destruct (Instrument_finishes_the_span_it_started accept_all stub_client "child"
              slow_failure traced_ctx traced_world child_ctx child_world
              (Some (Errorf "boom")) slow_world
              StartSpan_child slow_failure_run slow_world_carrier)
    as (tc & id & w2 & finish & _ & H1 & H2 & _ & H3 & _).
  exists tc, id, w2, finish. split; [exact H1|]. split; [exact H2|exact H3].
Defined.


Lemma completion_duration_ms_witness :
  completion_metadata "op" (elapsed 0 2500000) !! "duration_ms" = Some (GoInt 2).
Proof.
  refine (proj1 (completion_duration_ms "op" 0 2500000 _)).
  unfold maxDuration. lia.
Defined.

Lemma carrier_is_found_by_string_key_witness :
  GetTraceFromContext (WithValue traced_ctx "request-id" (CtxOther (GoString "r1"))) =
    GetTraceFromContext traced_ctx /\
  FinishSpan accept_all stub_client
    (WithValue traced_ctx trace_key (CtxOther (GoString "r1"))) traced_world =
    (Ret (Some (Errorf "no trace context found")), traced_world).
Proof.
  destruct (carrier_is_found_by_string_key accept_all stub_client traced_ctx
              traced_world) as [H1 H2].
  split.
  - apply H1. discriminate.
  - exact (proj2 (H2 (GoString "r1") "op")).
Defined.
